(** * PC-80B recording parser: decoder and artifact scanner/masker

    A shallow embedding of [process_file] of [parse_pc80b_v5.py] and the
    properties of its decode stage and of its scan/mask loop.

    - Python integers are [Z]; a [uint16] sample is a [Z] whose bit fields are
      read with [Z.land] and [Z.shiftr].
    - The thresholds [0.7 * min_signal] and [1.3 * max_signal] are IEEE 754
      binary64 products; they are computed with the executable specification
      of floating-point arithmetic of the standard library ([SpecFloat]).
    - Python slices ([a[i:j]], [a[i:]], [a[i:j] = v]) follow Python's index
      normalisation, negative indices included.
    - The [while] loop is a fuel-indexed function; [OutOfFuel] is a separate
      outcome. That the loop is over within one iteration per sample on
      valid parameters, and that it returns while no [int64] sum overflows,
      are theorems.
    - An index is a Python integer or a NumPy [int64] scalar, as the code
      has it: [np.where] returns [int64] indices, a Python integer added to
      one must fit [int64] ([OverflowError] otherwise) and the sum wraps
      around (NumPy 2 rules).
    - File reading, the writing of the CSV files and the plot are outside
      the model: [process_file] here takes the bytes of the file and returns
      the sample array and [zeroed_regions] as they are when the loop ends;
      [parsed_columns] is what lines 82-84 make of that array. *)

From Stdlib Require Import ZArith List Bool Lia.
From Stdlib Require Import Strings.Byte.
From Stdlib Require Import Floats.SpecFloat.
Import ListNotations.

#[local] Open Scope Z_scope.

(** ** Binary64 arithmetic *)

Module F64.

Definition prec : Z := 53.
Definition emax : Z := 1024.

(** A [uint16] (or any integer) converted to binary64, as NumPy does before
    multiplying or comparing with a float. *)
Definition of_int (z : Z) : spec_float := binary_normalize prec emax z 0 false.

Definition mul : spec_float -> spec_float -> spec_float := SFmul prec emax.
Definition div : spec_float -> spec_float -> spec_float := SFdiv prec emax.
Definition ltb : spec_float -> spec_float -> bool := SFltb.

(** The literals [0.7] and [1.3]: the binary64 numbers nearest to 7/10 and
    13/10, [0x1.6666666666666p-1] and [0x1.4cccccccccccdp+0]. *)
Definition lit_0_7 : spec_float := S754_finite false 0x16666666666666 (-53).
Definition lit_1_3 : spec_float := S754_finite false 0x14cccccccccccd (-52).

(** Python's [int(x)] on a float: truncation toward zero; [None] stands for
    the exception raised on an infinity or a NaN. *)
Definition to_int (f : spec_float) : option Z :=
  match f with
  | S754_zero _ => Some 0
  | S754_finite s m e =>
      let a := match e with
               | Zneg p => Z.shiftr (Zpos m) (Zpos p)
               | _ => Z.shiftl (Zpos m) e
               end in
      Some (if s then - a else a)
  | S754_infinity _ | S754_nan => None
  end.

(** The exact value of a finite float as a fixed-point number with 60
    fractional bits, that is in units of [2^-60]: an integer for every float
    of exponent at least [-60]. The 12-bit amplitudes and their products
    with [0.7] and [1.3] have exponents from [-53] to [-40]. *)
Definition frac_bits : Z := 60.

Definition fixed (f : spec_float) : Z :=
  match f with
  | S754_finite s m e => (if s then -1 else 1) * Z.shiftl (Zpos m) (e + frac_bits)
  | _ => 0
  end.

Definition one : Z := Z.shiftl 1 frac_bits.

(** Non-negative binary64 numbers in normal form whose value [fixed] gives
    exactly: [+0], or a 53-bit mantissa with exponent at least [-60]. *)
Definition nonneg_normal (f : spec_float) : bool :=
  match f with
  | S754_zero false => true
  | S754_finite false m e => (Zpos (digits2_pos m) =? prec) && (- frac_bits <=? e)
  | _ => false
  end.

End F64.

(** ** Python and NumPy primitives *)

(** Index normalisation of a slice bound on a sequence of length [len]:
    a negative bound counts from the end, and every bound is clipped to
    [0 .. len]. *)
Definition py_norm (len i : Z) : Z :=
  if i <? 0 then Z.max 0 (i + len) else Z.min i len.

Definition py_len {A : Type} (l : list A) : Z := Z.of_nat (length l).

(** [l[start:stop]] *)
Definition py_slice {A : Type} (l : list A) (start stop : Z) : list A :=
  let lo := py_norm (py_len l) start in
  let hi := py_norm (py_len l) stop in
  firstn (Z.to_nat (hi - lo)) (skipn (Z.to_nat lo) l).

(** [l[start:]] *)
Definition py_slice_from {A : Type} (l : list A) (start : Z) : list A :=
  skipn (Z.to_nat (py_norm (py_len l) start)) l.

(** [l[:stop]] *)
Definition py_slice_to {A : Type} (l : list A) (stop : Z) : list A :=
  firstn (Z.to_nat (py_norm (py_len l) stop)) l.

(** [a[start:stop] = v] on a NumPy array: every position of the slice
    receives the scalar [v]; [i] is the index of the head of [l]. *)
Fixpoint assign_from (l : list Z) (i lo hi v : Z) : list Z :=
  match l with
  | [] => []
  | x :: r => (if (lo <=? i) && (i <? hi) then v else x) :: assign_from r (i + 1) lo hi v
  end.

Definition np_slice_assign (a : list Z) (start stop v : Z) : list Z :=
  assign_from a 0 (py_norm (py_len a) start) (py_norm (py_len a) stop) v.

(** [np.min] and [np.max]; [None] stands for the [ValueError] NumPy raises on
    a zero-size array. *)
Definition np_min (a : list Z) : option Z :=
  match a with
  | [] => None
  | x :: r => Some (fold_left Z.min r x)
  end.

Definition np_max (a : list Z) : option Z :=
  match a with
  | [] => None
  | x :: r => Some (fold_left Z.max r x)
  end.

(** [np.where(mask)[0]]: the indices at which the mask holds, in increasing
    order; [i] is the index of the head of [l]. *)
Fixpoint where_from (p : Z -> bool) (l : list Z) (i : Z) : list Z :=
  match l with
  | [] => []
  | x :: r => if p x then i :: where_from p r (i + 1) else where_from p r (i + 1)
  end.

Definition np_where (p : Z -> bool) (a : list Z) : list Z := where_from p a 0.

(** ** Data model *)

(** A sample is the raw 16-bit unit; its two fields are views of it. *)
Definition amplitude (raw : Z) : Z := Z.land raw 0x0FFF.
Definition quality (raw : Z) : Z := Z.land (Z.shiftr raw 12) 0x000F.

(** One entry of [zeroed_regions]: [(first_outlier, end_idx, replacement_value)]. *)
Record MaskedInterval : Type := mkInterval {
  start_index : Z;
  end_index : Z;
  replacement_value : Z
}.

(** The exceptions the modelled part of the program can raise. *)
Inductive error : Type :=
| ValueError      (* NumPy: reduction of a zero-size array, odd buffer size *)
| OverflowError.  (* [int] of a non-finite float, integer beyond [int64] *)

Inductive outcome : Type :=
| Done (samples : list Z) (zeroed_regions : list MaskedInterval)
| Raised (e : error)
| OutOfFuel.

(** ** Decoder *)

Definition byte_val (b : byte) : Z := Z.of_N (Byte.to_N b).

(** [np.frombuffer(buf, dtype="<u2")]: little-endian pairs, low byte first;
    NumPy raises [ValueError] when the size is not a multiple of two. *)
Fixpoint frombuffer_u2le (buf : list byte) : option (list Z) :=
  match buf with
  | [] => Some []
  | [_] => None
  | lo :: hi :: rest =>
      match frombuffer_u2le rest with
      | Some l => Some ((byte_val lo + 256 * byte_val hi) :: l)
      | None => None
      end
  end.

Definition decode (data : list byte) (header_size : Z) : option (list Z) :=
  let tail := py_slice_from data header_size in
  let tail := if negb (py_len tail mod 2 =? 0) then py_slice_to tail (-1) else tail in
  frombuffer_u2le tail.

(** ** Artifact scanner and masker *)

Definition low_thresh (min_signal : Z) : spec_float :=
  F64.mul F64.lit_0_7 (F64.of_int min_signal).

Definition high_thresh (max_signal : Z) : spec_float :=
  F64.mul F64.lit_1_3 (F64.of_int max_signal).

(** The mask of line 63: [(s & 0x0FFF < low_thresh) | (s & 0x0FFF > high_thresh)];
    the integer operand is converted to binary64 for the comparison. *)
Definition is_outlier (low high : spec_float) (raw : Z) : bool :=
  F64.ltb (F64.of_int (amplitude raw)) low || F64.ltb high (F64.of_int (amplitude raw)).

(** *** Python integers and [int64] scalars

    [idx] starts as the Python integer [0]; [outliers[0]] is an [np.int64],
    so [first_outlier] is one, and [end_idx] is [first_outlier +
    region_samples] (an [np.int64]) or [len(samples)] (a Python integer). *)
Inductive intval : Type :=
| PyInt (z : Z)
| Int64 (z : Z).

Definition int_value (a : intval) : Z :=
  match a with
  | PyInt z => z
  | Int64 z => z
  end.

(** [np.int64] holds the integers from [-2^63] to [2^63 - 1]. An array has
    far fewer than [2^61] elements, so that four times its length is below
    [2^63]; for lists of any length to keep that relation, the bound used
    with an array of [len] elements is the larger of [2^63] and [4 * len],
    which is [2^63] for every array. *)
Definition int64_bound (len : Z) : Z := Z.max (2 ^ 63) (4 * len).

Definition fits (bound z : Z) : bool := (- bound <=? z) && (z <? bound).

(** Two's complement wrap-around of an overflowing [int64] sum. *)
Definition wrap (bound z : Z) : Z := (z + bound) mod (2 * bound) - bound.

(** [a + n] for a Python integer [n]: exact when [a] is a Python integer;
    when [a] is an [np.int64], [n] is converted to [int64], which raises
    [OverflowError] ([None]) if it does not fit, and the sum wraps. *)
Definition add_pyint (bound : Z) (a : intval) (n : Z) : option intval :=
  match a with
  | PyInt z => Some (PyInt (z + n))
  | Int64 z => if fits bound n then Some (Int64 (wrap bound (z + n))) else None
  end.

(** [a + o] for an [np.int64] [o]: a Python integer [a] is converted. *)
Definition add_int64 (bound : Z) (a : intval) (o : Z) : option intval :=
  match a with
  | PyInt z => if fits bound z then Some (Int64 (wrap bound (z + o))) else None
  | Int64 z => Some (Int64 (wrap bound (z + o)))
  end.

(** Python's [min(a, len)]: the second argument only if it is smaller. *)
Definition py_min (a : intval) (len : Z) : intval :=
  if len <? int_value a then PyInt len else a.

Inductive step_result : Type :=
| Break
| Fail (e : error)
| Next (samples : list Z) (region : MaskedInterval) (idx : intval).

Section Scanner.

Variables header_size trailer_size sample_rate : Z.

Definition n_per_20s : Z := sample_rate * 20.

Definition region_samples : Z := (header_size + trailer_size) / 2.

(** One pass through the body of the [while] loop, entered with
    [idx + n_per_20s] already computed by the loop test. *)
Definition loop_body (samples : list Z) (idx : intval) : step_result :=
  let bound := int64_bound (py_len samples) in
  match add_pyint bound idx n_per_20s with
  | None => Fail OverflowError
  | Some stop =>
      let window :=
        map amplitude (py_slice samples (int_value idx) (int_value stop)) in
      match np_min window, np_max window with
      | Some min_signal, Some max_signal =>
          let low := low_thresh min_signal in
          let high := high_thresh max_signal in
          let outliers :=
            np_where (is_outlier low high) (py_slice_from samples (int_value stop)) in
          match outliers with
          | [] => Break
          | o :: _ =>
              match add_int64 bound stop o with
              | None => Fail OverflowError
              | Some first_outlier =>
                  match add_pyint bound first_outlier region_samples with
                  | None => Fail OverflowError
                  | Some region_end =>
                      let end_idx := py_min region_end (py_len samples) in
                      match F64.to_int low with
                      | Some v =>
                          let replacement := Z.land v 0x0FFF in
                          Next (np_slice_assign samples (int_value first_outlier)
                                                (int_value end_idx) replacement)
                               (mkInterval (int_value first_outlier)
                                           (int_value end_idx) replacement)
                               end_idx
                      | None => Fail OverflowError
                      end
                  end
              end
          end
      | _, _ => Fail ValueError
      end
  end.

(** The [while] loop, with the list of regions found so far. *)
Fixpoint while_loop (fuel : nat) (samples : list Z) (idx : intval)
         (zeroed_regions : list MaskedInterval) : outcome :=
  match add_pyint (int64_bound (py_len samples)) idx n_per_20s with
  | None => Raised OverflowError
  | Some stop =>
      if int_value stop <? py_len samples then
        match fuel with
        | O => OutOfFuel
        | S fuel' =>
            match loop_body samples idx with
            | Break => Done samples zeroed_regions
            | Fail e => Raised e
            | Next samples' region idx' =>
                while_loop fuel' samples' idx' (zeroed_regions ++ [region])
            end
        end
      else Done samples zeroed_regions
  end.

(** The scanner on a decoded sample sequence. *)
Definition scan (fuel : nat) (samples : list Z) : outcome :=
  while_loop fuel samples (PyInt 0) [].

(** [process_file] up to the end of the loop: the sample array and
    [zeroed_regions] handed to the CSV and plot code. *)
Definition process_file (fuel : nat) (data : list byte) : outcome :=
  match decode data header_size with
  | Some samples => scan fuel samples
  | None => Raised ValueError
  end.

End Scanner.


(** ** Vocabulary of the statements *)

(** The sample at index [i] ([0] outside the sequence). *)
Definition get (l : list Z) (i : Z) : Z := nth (Z.to_nat i) l 0.

(** [mn] is the least, [mx] the greatest amplitude over the indices
    [lo <= j < hi]. *)
Definition is_min_of (mn : Z) (samples : list Z) (lo hi : Z) : Prop :=
  (exists j, lo <= j < hi /\ amplitude (get samples j) = mn) /\
  (forall j, lo <= j < hi -> mn <= amplitude (get samples j)).

Definition is_max_of (mx : Z) (samples : list Z) (lo hi : Z) : Prop :=
  (exists j, lo <= j < hi /\ amplitude (get samples j) = mx) /\
  (forall j, lo <= j < hi -> amplitude (get samples j) <= mx).

(** The tolerance band in exact arithmetic: [a < 7/10 * mn] or
    [a > 13/10 * mx]; an amplitude equal to a threshold is inside the band. *)
Definition outlier_exact (mn mx a : Z) : bool :=
  (10 * a <? 7 * mn) || (13 * mx <? 10 * a).

(** [int(0.7 * min_signal) & 0x0FFF], the value written into a masked region. *)
Definition replacement_for (min_signal : Z) : option Z :=
  match F64.to_int (low_thresh min_signal) with
  | Some v => Some (Z.land v 0x0FFF)
  | None => None
  end.

Definition in_interval (iv : MaskedInterval) (j : Z) : Prop :=
  start_index iv <= j < end_index iv.

(** The cursor [idx] with which the iteration after the regions [pre] starts:
    the end of the last region found, or the initial cursor [idx0]. *)
Definition cursor_after (idx0 : Z) (pre : list MaskedInterval) : Z :=
  last (map end_index pre) idx0.

(** What the binary64 computations give for a 12-bit amplitude [x], checked
    against exact integer arithmetic: the conversion is exact, the low
    threshold lies in [(k - 1, k]] for [k] the ceiling of [7x/10], the high
    threshold in [[k, k + 1)] for [k] the floor of [13x/10], and [int] of the
    low threshold is defined and within one of [7x/10]. *)
Definition float_facts (x : Z) : bool :=
  let u := F64.one in
  let lo := low_thresh x in
  let hi := high_thresh x in
  let kl := (7 * x + 9) / 10 in
  let kh := (13 * x) / 10 in
  F64.nonneg_normal (F64.of_int x) && (F64.fixed (F64.of_int x) =? x * u)
  && F64.nonneg_normal lo && ((kl - 1) * u <? F64.fixed lo) && (F64.fixed lo <=? kl * u)
  && F64.nonneg_normal hi && (kh * u <=? F64.fixed hi) && (F64.fixed hi <? (kh + 1) * u)
  && match F64.to_int lo with
     | Some v => (0 <=? v) && (v <? 4096) && (10 * v <=? 7 * x) && (7 * x <? 10 * v + 20)
     | None => false
     end.

Definition amplitudes : list Z := map Z.of_nat (seq 0 4096).

Section Runs.

Variables header_size trailer_size sample_rate : Z.

#[local] Abbreviation n := (n_per_20s sample_rate).
#[local] Abbreviation body := (loop_body header_size trailer_size sample_rate).

(** The executions of the loop that return, as a relation:
    [run s idx s' regions] when the loop entered with samples [s] and cursor
    [idx] leaves with samples [s'] after appending [regions]. *)
Inductive run : list Z -> intval -> list Z -> list MaskedInterval -> Prop :=
| run_exit s idx :
    ~ int_value idx + n < py_len s ->
    run s idx s []
| run_break s idx :
    int_value idx + n < py_len s ->
    body s idx = Break ->
    run s idx s []
| run_next s idx s1 iv idx1 s' regions :
    int_value idx + n < py_len s ->
    body s idx = Next s1 iv idx1 ->
    run s1 idx1 s' regions ->
    run s idx s' (iv :: regions).

(** A cursor the loop can hold: not negative and, when it is an [np.int64],
    the value left by an earlier iteration, within the sequence, which was
    longer than the window. *)
Definition cursor_ok (s : list Z) (idx : intval) : Prop :=
  0 <= int_value idx /\
  match idx with
  | PyInt _ => True
  | Int64 z => z <= py_len s /\ n < py_len s
  end.

(** Consecutive regions: each starts at least one baseline window after the
    cursor, ends inside the sequence, and moves the cursor to its end. *)
Inductive chain (len : Z) : Z -> list MaskedInterval -> Prop :=
| chain_nil idx : chain len idx []
| chain_cons idx iv regions :
    idx + n <= start_index iv ->
    start_index iv < len ->
    start_index iv <= end_index iv ->
    end_index iv <= len ->
    chain len (end_index iv) regions ->
    chain len idx (iv :: regions).

End Runs.

(** Lines 71 to 79 for a first outlier at index [f] and a replacement [r]:
    what the loop body does once the outlier is found. *)
Definition mask_from (header_size trailer_size : Z) (samples : list Z) (f r : Z)
  : step_result :=
  match add_pyint (int64_bound (py_len samples)) (Int64 f)
                  (region_samples header_size trailer_size) with
  | None => Fail OverflowError
  | Some region_end =>
      Next (np_slice_assign samples f
                            (int_value (py_min region_end (py_len samples))) r)
           (mkInterval f (int_value (py_min region_end (py_len samples))) r)
           (py_min region_end (py_len samples))
  end.

(** No sample after the first baseline window [[0, n)] of [s] is outside
    the band of that window. *)
Definition in_first_band (n : Z) (s : list Z) : Prop :=
  forall mn mx j,
    is_min_of mn s 0 n -> is_max_of mx s 0 n -> n <= j < py_len s ->
    outlier_exact mn mx (amplitude (get s j)) = false.

(** ** Inputs of the examples *)

(** Twenty samples of value 10, then two of value 100, as a buffer without
    header and as the decoded sequence. *)
Definition flat_buffer : list byte :=
  concat (repeat [x0a; x00] 20) ++ [x64; x00; x64; x00].

Definition flat_samples : list Z := repeat 10 20 ++ [100; 100].

(** The spike scenario at 150 Hz with a masked region of one sample:
    3000 samples of 1000, a spike of amplitude 4095 with all quality bits
    set, one sample of amplitude 0, 3000 samples of 1000. *)
Definition spike_samples : list Z :=
  repeat 1000 3000 ++ 0xFFFF :: [0] ++ repeat 1000 3000.

(** [flat_samples] after one run with [header_size + trailer_size = 2] at
    1 Hz, and after a second run. *)
Definition flat_masked_once : list Z := repeat 10 20 ++ [7; 100].
Definition flat_masked_twice : list Z := repeat 10 20 ++ [7; 7].

Definition spike_masked_once : list Z :=
  repeat 1000 3000 ++ 700 :: [0] ++ repeat 1000 3000.
Definition spike_masked_twice : list Z :=
  repeat 1000 3000 ++ 700 :: [700] ++ repeat 1000 3000.

(** A buffer of five bytes and one of four. *)
Definition odd_buffer : list byte := [x01; x02; x03; xff; x07].
Definition small_buffer : list byte := [x01; x02; x03; x04].

(** Twenty samples of value 90 and one of 200, before and after a run. *)
Definition ninety_samples : list Z := repeat 90 20 ++ [200].
Definition ninety_masked : list Z := repeat 90 20 ++ [62].

(** Two windows of value 10, each followed by a sample of 100, before and
    after a run. *)
Definition two_spikes : list Z := repeat 10 20 ++ [100] ++ repeat 10 20 ++ [100].
Definition two_spikes_masked : list Z := repeat 10 20 ++ [7] ++ repeat 10 20 ++ [7].

(** A window of value 10, two more samples of 10 and one of 100. *)
Definition gap_samples : list Z := repeat 10 20 ++ [10; 10; 100].
Definition gap_masked : list Z := repeat 10 20 ++ [10; 10; 7].

(** Windows at the ends of the 12-bit range: all zero, then 5; all 3200,
    then 100. *)
Definition zero_samples : list Z := repeat 0 20 ++ [5].
Definition zero_masked : list Z := repeat 0 20 ++ [0].
Definition high_samples : list Z := repeat 3200 20 ++ [100].
Definition high_masked : list Z := repeat 3200 20 ++ [2240].

(** ** The parsed table and the regions as a whole *)

(** Lines 83-84: the amplitude and the quality-flag column of the parsed
    CSV, computed from the sample array after the loop. *)
Definition amplitudes_column (samples : list Z) : list Z :=
  map (fun raw => Z.land raw 0x0FFF) samples.

Definition flags_column (samples : list Z) : list Z :=
  map (fun raw => Z.land (Z.shiftr raw 12) 0x000F) samples.

(** Line 82: [float(sample_rate)], which raises [OverflowError] ([None])
    for an integer beyond the binary64 range. *)
Definition py_float (z : Z) : option spec_float :=
  match F64.of_int z with
  | S754_infinity _ => None
  | f => Some f
  end.

(** Lines 82-84: the two columns are built after [float(sample_rate)]. *)
Definition parsed_columns (sample_rate : Z) (samples : list Z)
  : option (list Z * list Z) :=
  match py_float sample_rate with
  | None => None
  | Some _ => Some (amplitudes_column samples, flags_column samples)
  end.

(** The number of samples a list of regions covers. *)
Definition masked_total (regions : list MaskedInterval) : Z :=
  fold_right (fun iv acc => (end_index iv - start_index iv) + acc) 0 regions.

(** An amplitude strictly outside the band of a window with least amplitude
    [mn] and greatest amplitude [mx]. *)
Definition outside_band (mn mx a : Z) : Prop :=
  10 * a < 7 * mn \/ 13 * mx < 10 * a.

(** Two outcomes that differ at most in the quality bits of the samples. *)
Definition same_up_to_quality (o1 o2 : outcome) : Prop :=
  match o1, o2 with
  | Done s1 r1, Done s2 r2 => map amplitude s1 = map amplitude s2 /\ r1 = r2
  | Raised e1, Raised e2 => e1 = e2
  | OutOfFuel, OutOfFuel => True
  | _, _ => False
  end.

(** ** Binary64 facts *)

Example lit_0_7_is_7_div_10 : F64.div (F64.of_int 7) (F64.of_int 10) = F64.lit_0_7.
Proof. vm_compute. reflexivity. Qed.

Example lit_1_3_is_13_div_10 : F64.div (F64.of_int 13) (F64.of_int 10) = F64.lit_1_3.
Proof. vm_compute. reflexivity. Qed.

Example low_thresh_1000 : F64.to_int (low_thresh 1000) = Some 700.
Proof. vm_compute. reflexivity. Qed.

(** The binary64 product is below the exact one here: [0.7 * 90] is
    [62.99999999999999] and [int] gives [62], not [63]. *)
Example low_thresh_90 : F64.to_int (low_thresh 90) = Some 62.
Proof. vm_compute. reflexivity. Qed.

Lemma amplitudes_spec x : 0 <= x < 4096 -> In x amplitudes.
Proof.
  intros Hx. unfold amplitudes.
  apply in_map_iff. exists (Z.to_nat x). split; [lia|].
  apply in_seq. lia.
Qed.

Lemma float_facts_all : forallb float_facts amplitudes = true.
Proof. vm_compute. reflexivity. Qed.

Lemma float_facts_ok x : 0 <= x < 4096 -> float_facts x = true.
Proof.
  intros Hx. pose proof float_facts_all as H.
  rewrite forallb_forall in H. apply H, amplitudes_spec, Hx.
Qed.

Lemma digits2_pos_bounds m :
  2 ^ (Zpos (digits2_pos m) - 1) <= Zpos m < 2 ^ Zpos (digits2_pos m).
Proof.
  induction m as [m IH|m IH|]; cbn [digits2_pos].
  - rewrite Pos2Z.inj_succ.
    replace (Z.succ (Zpos (digits2_pos m)) - 1) with (Z.succ (Zpos (digits2_pos m) - 1)) by lia.
    rewrite !Z.pow_succ_r by lia. lia.
  - rewrite Pos2Z.inj_succ.
    replace (Z.succ (Zpos (digits2_pos m)) - 1) with (Z.succ (Zpos (digits2_pos m) - 1)) by lia.
    rewrite !Z.pow_succ_r by lia. lia.
  - cbn. lia.
Qed.

(** On non-negative normal numbers the binary64 order is the order of the
    exact values. *)
Lemma ltb_fixed f g :
  F64.nonneg_normal f = true -> F64.nonneg_normal g = true ->
  F64.ltb f g = (F64.fixed f <? F64.fixed g).
Proof.
  unfold F64.ltb, SFltb, F64.nonneg_normal, F64.fixed, F64.frac_bits, F64.prec.
  destruct f as [[|]| | |[|] mf ef], g as [[|]| | |[|] mg eg];
    try discriminate; intros Hf Hg.
  - reflexivity.
  - apply andb_prop in Hg as [_ Heg]. apply Z.leb_le in Heg.
    cbn [SFcompare]. rewrite Z.shiftl_mul_pow2 by lia.
    symmetry. apply Z.ltb_lt.
    assert (0 < 2 ^ (eg + 60)) by (apply Z.pow_pos_nonneg; lia).
    lia.
  - apply andb_prop in Hf as [_ Hef]. apply Z.leb_le in Hef.
    cbn [SFcompare]. rewrite Z.shiftl_mul_pow2 by lia.
    symmetry. apply Z.ltb_ge.
    assert (0 < 2 ^ (ef + 60)) by (apply Z.pow_pos_nonneg; lia).
    lia.
  - apply andb_prop in Hf as [Hdf Hef], Hg as [Hdg Heg].
    apply Z.eqb_eq in Hdf, Hdg. apply Z.leb_le in Hef, Heg.
    pose proof (digits2_pos_bounds mf) as Bf. pose proof (digits2_pos_bounds mg) as Bg.
    rewrite Hdf in Bf. rewrite Hdg in Bg. change (53 - 1) with 52 in *.
    cbn [SFcompare]. rewrite !Z.mul_1_l, !Z.shiftl_mul_pow2 by lia.
    set (p52 := 2 ^ 52) in *. change (2 ^ 53) with (2 * p52) in *.
    assert (0 < p52) by (subst p52; reflexivity).
    destruct (Z.compare_spec ef eg) as [Heq|Hlt|Hgt].
    + subst eg. rewrite Pos.compare_cont_spec. cbn [Pos.switch_Eq].
      assert (0 < 2 ^ (ef + 60)) by (apply Z.pow_pos_nonneg; lia).
      change (Pos.compare mf mg) with (Z.compare (Zpos mf) (Zpos mg)).
      destruct (Z.compare_spec (Zpos mf) (Zpos mg)) as [E|L|G]; symmetry.
      * apply Z.ltb_ge. rewrite E. lia.
      * apply Z.ltb_lt. nia.
      * apply Z.ltb_ge. nia.
    + symmetry. apply Z.ltb_lt.
      replace (eg + 60) with ((ef + 60) + (eg - ef)) by lia.
      rewrite (Z.pow_add_r 2 (ef + 60) (eg - ef)) by lia.
      assert (0 < 2 ^ (ef + 60)) by (apply Z.pow_pos_nonneg; lia).
      assert (2 ^ 1 <= 2 ^ (eg - ef)) by (apply Z.pow_le_mono_r; lia).
      change (2 ^ 1) with 2 in *.
      set (A := 2 ^ (ef + 60)) in *. set (B := 2 ^ (eg - ef)) in *.
      assert (Z.pos mf * A < 2 * p52 * A) by nia.
      assert (2 * A <= A * B) by nia.
      assert (p52 * (2 * A) <= Z.pos mg * (A * B)) by (apply Z.mul_le_mono_nonneg; lia).
      lia.
    + symmetry. apply Z.ltb_ge.
      replace (ef + 60) with ((eg + 60) + (ef - eg)) by lia.
      rewrite (Z.pow_add_r 2 (eg + 60) (ef - eg)) by lia.
      assert (0 < 2 ^ (eg + 60)) by (apply Z.pow_pos_nonneg; lia).
      assert (2 ^ 1 <= 2 ^ (ef - eg)) by (apply Z.pow_le_mono_r; lia).
      change (2 ^ 1) with 2 in *.
      set (A := 2 ^ (eg + 60)) in *. set (B := 2 ^ (ef - eg)) in *.
      assert (Z.pos mg * A < 2 * p52 * A) by nia.
      assert (2 * A <= A * B) by nia.
      assert (p52 * (2 * A) <= Z.pos mf * (A * B)) by (apply Z.mul_le_mono_nonneg; lia).
      lia.
Qed.

Lemma amplitude_range raw : 0 <= amplitude raw < 4096.
Proof.
  unfold amplitude. change 0x0FFF with (Z.ones 12).
  rewrite Z.land_ones by lia. apply Z.mod_pos_bound. reflexivity.
Qed.

Lemma amplitude_small v : 0 <= v < 4096 -> amplitude v = v.
Proof.
  intros Hv. unfold amplitude. change 0x0FFF with (Z.ones 12).
  rewrite Z.land_ones by lia. apply Z.mod_small. exact Hv.
Qed.

Lemma quality_small v : 0 <= v < 4096 -> quality v = 0.
Proof.
  intros Hv. unfold quality.
  rewrite Z.shiftr_div_pow2 by lia. rewrite Z.div_small by exact Hv. reflexivity.
Qed.

Lemma div10_bounds x : 10 * (x / 10) <= x < 10 * (x / 10) + 10.
Proof.
  pose proof (Z.div_mod x 10 ltac:(lia)).
  pose proof (Z.mod_pos_bound x 10 ltac:(lia)). lia.
Qed.

(** The mask computed in binary64 is the band in exact arithmetic. *)
Lemma is_outlier_exact mn mx raw :
  0 <= mn < 4096 -> 0 <= mx < 4096 ->
  is_outlier (low_thresh mn) (high_thresh mx) raw = outlier_exact mn mx (amplitude raw).
Proof.
  intros Hmn Hmx. pose proof (amplitude_range raw) as Ha.
  unfold is_outlier, outlier_exact.
  generalize dependent (amplitude raw). intros a Ha.
  pose proof (float_facts_ok _ Hmn) as Fmn.
  pose proof (float_facts_ok _ Hmx) as Fmx.
  pose proof (float_facts_ok _ Ha) as Fa.
  unfold float_facts in Fmn, Fmx, Fa.
  do 4 (apply andb_prop in Fmn as [Fmn _]). apply andb_prop in Fmn as [Fmn L2].
  apply andb_prop in Fmn as [Fmn L1]. apply andb_prop in Fmn as [_ Ln].
  apply andb_prop in Fmx as [Fmx _]. apply andb_prop in Fmx as [Fmx U2].
  apply andb_prop in Fmx as [Fmx U1]. apply andb_prop in Fmx as [_ Un].
  do 7 (apply andb_prop in Fa as [Fa _]). apply andb_prop in Fa as [An Ae].
  rewrite !ltb_fixed by assumption.
  apply Z.eqb_eq in Ae. apply Z.ltb_lt in L1, U2. apply Z.leb_le in L2, U1.
  rewrite Ae.
  pose proof (div10_bounds (7 * mn + 9)) as Dl.
  pose proof (div10_bounds (13 * mx)) as Dh.
  generalize dependent ((7 * mn + 9) / 10). intros kl L1 L2 Dl.
  generalize dependent (13 * mx / 10). intros kh U1 U2 Dh.
  generalize dependent (F64.fixed (low_thresh mn)). intros lo L1 L2.
  generalize dependent (F64.fixed (high_thresh mx)). intros hi U1 U2.
  assert (Hone : 0 < F64.one) by reflexivity.
  generalize dependent F64.one. intros u Ae L1 L2 U1 U2 Hone.
  clear Ln Un An Ae.
  f_equal.
  - destruct (Z.ltb_spec (10 * a) (7 * mn)) as [L|G].
    + apply Z.ltb_lt. assert (a <= kl - 1) by lia.
      assert (a * u <= (kl - 1) * u) by (apply Z.mul_le_mono_nonneg_r; lia). lia.
    + apply Z.ltb_ge. assert (kl <= a) by lia.
      assert (kl * u <= a * u) by (apply Z.mul_le_mono_nonneg_r; lia). lia.
  - destruct (Z.ltb_spec (13 * mx) (10 * a)) as [L|G].
    + apply Z.ltb_lt. assert (kh + 1 <= a) by lia.
      assert ((kh + 1) * u <= a * u) by (apply Z.mul_le_mono_nonneg_r; lia). lia.
    + apply Z.ltb_ge. assert (a <= kh) by lia.
      assert (a * u <= kh * u) by (apply Z.mul_le_mono_nonneg_r; lia). lia.
Qed.

(** [int(0.7 * m)] is defined on a 12-bit [m], needs no truncation to 12
    bits, and is the floor of [7m/10] or one less. *)
Lemma replacement_for_spec m :
  0 <= m < 4096 ->
  exists v, F64.to_int (low_thresh m) = Some v /\ replacement_for m = Some v /\
            0 <= v < 4096 /\ 10 * v <= 7 * m < 10 * v + 20.
Proof.
  intros Hm. pose proof (float_facts_ok _ Hm) as F.
  unfold float_facts in F. apply andb_prop in F as [_ F].
  unfold replacement_for.
  destruct (F64.to_int (low_thresh m)) as [v|]; [|discriminate].
  repeat (apply andb_prop in F as [F ?]).
  repeat match goal with
         | H : (_ <? _) = true |- _ => apply Z.ltb_lt in H
         | H : (_ <=? _) = true |- _ => apply Z.leb_le in H
         end.
  exists v. repeat split; try lia.
  f_equal. apply amplitude_small. lia.
Qed.

(** ** Slices, reductions and index search *)

Lemma py_len_nonneg {A} (l : list A) : 0 <= py_len l.
Proof. unfold py_len. lia. Qed.

Lemma py_norm_id len i : 0 <= i <= len -> py_norm len i = i.
Proof. unfold py_norm. intros H. destruct (Z.ltb_spec i 0); lia. Qed.

Lemma py_norm_over len i : 0 <= len <= i -> py_norm len i = len.
Proof. unfold py_norm. intros H. destruct (Z.ltb_spec i 0); lia. Qed.

Lemma get_nth l (k : nat) : get l (Z.of_nat k) = nth k l 0.
Proof. unfold get. rewrite Nat2Z.id. reflexivity. Qed.

Lemma get_outside l j : py_len l <= j -> get l j = 0.
Proof. unfold get, py_len. intros H. apply nth_overflow. lia. Qed.

Lemma assign_from_length l i lo hi v : length (assign_from l i lo hi v) = length l.
Proof. revert i. induction l as [|x r IH]; intros i; cbn; [reflexivity|]. now rewrite IH. Qed.

Lemma assign_from_nth l : forall i lo hi v (k : nat),
  (k < length l)%nat ->
  nth k (assign_from l i lo hi v) 0 =
  if (lo <=? i + Z.of_nat k) && (i + Z.of_nat k <? hi) then v else nth k l 0.
Proof.
  induction l as [|x r IH]; intros i lo hi v k Hk; cbn in Hk; [lia|].
  destruct k as [|k]; cbn [assign_from nth].
  - rewrite Z.add_0_r. reflexivity.
  - rewrite IH by lia. replace (i + 1 + Z.of_nat k) with (i + Z.of_nat (S k)) by lia.
    reflexivity.
Qed.

Lemma np_slice_assign_len a s e v : py_len (np_slice_assign a s e v) = py_len a.
Proof. unfold np_slice_assign, py_len. now rewrite assign_from_length. Qed.

Lemma np_slice_assign_get a s e v j :
  0 <= s <= py_len a -> 0 <= e <= py_len a -> 0 <= j < py_len a ->
  get (np_slice_assign a s e v) j = if (s <=? j) && (j <? e) then v else get a j.
Proof.
  intros Hs He Hj. unfold np_slice_assign, get.
  rewrite !py_norm_id by assumption.
  rewrite assign_from_nth by (unfold py_len in Hj; lia).
  rewrite Z2Nat.id by lia. reflexivity.
Qed.

Lemma fold_min_spec r : forall x,
  In (fold_left Z.min r x) (x :: r) /\ forall y, In y (x :: r) -> fold_left Z.min r x <= y.
Proof.
  induction r as [|z r IH]; intros x; cbn [fold_left].
  - split; [now left|]. intros y [<-|[]]. lia.
  - destruct (IH (Z.min x z)) as [Hin Hle]. split.
    + destruct Hin as [E|Hin].
      * rewrite <- E. destruct (Z.min_spec x z) as [[_ ->]|[_ ->]]; [now left|now right; left].
      * right; right; exact Hin.
    + intros y [<-|[<-|Hy]].
      * specialize (Hle (Z.min x z) (or_introl eq_refl)). lia.
      * specialize (Hle (Z.min x z) (or_introl eq_refl)). lia.
      * apply Hle. now right.
Qed.

Lemma fold_max_spec r : forall x,
  In (fold_left Z.max r x) (x :: r) /\ forall y, In y (x :: r) -> y <= fold_left Z.max r x.
Proof.
  induction r as [|z r IH]; intros x; cbn [fold_left].
  - split; [now left|]. intros y [<-|[]]. lia.
  - destruct (IH (Z.max x z)) as [Hin Hle]. split.
    + destruct Hin as [E|Hin].
      * rewrite <- E. destruct (Z.max_spec x z) as [[_ ->]|[_ ->]]; [now right; left|now left].
      * right; right; exact Hin.
    + intros y [<-|[<-|Hy]].
      * specialize (Hle (Z.max x z) (or_introl eq_refl)). lia.
      * specialize (Hle (Z.max x z) (or_introl eq_refl)). lia.
      * apply Hle. now right.
Qed.

Lemma np_min_spec a :
  a <> [] -> exists m, np_min a = Some m /\ In m a /\ forall y, In y a -> m <= y.
Proof.
  destruct a as [|x r]; [congruence|]. intros _.
  exists (fold_left Z.min r x). split; [reflexivity|]. apply fold_min_spec.
Qed.

Lemma np_max_spec a :
  a <> [] -> exists m, np_max a = Some m /\ In m a /\ forall y, In y a -> y <= m.
Proof.
  destruct a as [|x r]; [congruence|]. intros _.
  exists (fold_left Z.max r x). split; [reflexivity|]. apply fold_max_spec.
Qed.

Lemma where_from_nil p l : forall i,
  where_from p l i = [] -> forall k, (k < length l)%nat -> p (nth k l 0) = false.
Proof.
  induction l as [|x r IH]; intros i H k Hk; cbn in *; [lia|].
  destruct (p x) eqn:Px; [discriminate|].
  destruct k as [|k]; [exact Px|]. apply (IH (i + 1)); [exact H|lia].
Qed.

Lemma where_from_cons p l : forall i o rest,
  where_from p l i = o :: rest ->
  exists k : nat, o = i + Z.of_nat k /\ (k < length l)%nat /\ p (nth k l 0) = true /\
                  forall k', (k' < k)%nat -> p (nth k' l 0) = false.
Proof.
  induction l as [|x r IH]; intros i o rest H; cbn in *; [discriminate|].
  destruct (p x) eqn:Px.
  - injection H as <- _. exists O. repeat split; [lia|lia|exact Px|lia].
  - destruct (IH _ _ _ H) as (k & -> & Hk & Hp & Hbefore).
    exists (S k). repeat split; [lia|lia|exact Hp|].
    intros [|k'] Hk'; [exact Px|]. apply Hbefore. lia.
Qed.

Lemma where_from_all_false p l i :
  (forall k, (k < length l)%nat -> p (nth k l 0) = false) -> where_from p l i = [].
Proof.
  intros H. destruct (where_from p l i) as [|o rest] eqn:E; [reflexivity|].
  destruct (where_from_cons _ _ _ _ _ E) as (k & _ & Hk & Hp & _).
  rewrite H in Hp by exact Hk. discriminate.
Qed.

Lemma py_slice_length (l : list Z) lo hi :
  0 <= lo <= hi -> hi <= py_len l -> length (py_slice l lo hi) = Z.to_nat (hi - lo).
Proof.
  intros H1 H2. unfold py_slice. rewrite !py_norm_id by lia.
  rewrite length_firstn, length_skipn. unfold py_len in H2. lia.
Qed.

Lemma py_slice_nth (l : list Z) lo hi (k : nat) :
  0 <= lo <= hi -> hi <= py_len l -> Z.of_nat k < hi - lo ->
  nth k (py_slice l lo hi) 0 = get l (lo + Z.of_nat k).
Proof.
  intros H1 H2 Hk. unfold py_slice, get. rewrite !py_norm_id by lia.
  rewrite nth_firstn.
  destruct (Nat.ltb_spec k (Z.to_nat (hi - lo))) as [_|C]; [|lia].
  rewrite nth_skipn. f_equal. lia.
Qed.

Lemma py_slice_from_length (l : list Z) lo :
  0 <= lo <= py_len l -> length (py_slice_from l lo) = Z.to_nat (py_len l - lo).
Proof.
  intros H. unfold py_slice_from. rewrite py_norm_id by lia.
  rewrite length_skipn. unfold py_len. lia.
Qed.

Lemma py_slice_from_nth (l : list Z) lo (k : nat) :
  0 <= lo <= py_len l -> nth k (py_slice_from l lo) 0 = get l (lo + Z.of_nat k).
Proof.
  intros H. unfold py_slice_from, get. rewrite py_norm_id by lia.
  rewrite nth_skipn. f_equal. lia.
Qed.

(** Membership in the amplitudes of a slice, by index. *)
Lemma in_window (l : list Z) lo hi x :
  0 <= lo <= hi -> hi <= py_len l ->
  In x (map amplitude (py_slice l lo hi)) <->
  exists j, lo <= j < hi /\ amplitude (get l j) = x.
Proof.
  intros H1 H2. rewrite in_map_iff. split.
  - intros (y & <- & Hy). apply (In_nth _ _ 0) in Hy as (k & Hk & <-).
    rewrite py_slice_length in Hk by assumption.
    exists (lo + Z.of_nat k). split; [lia|].
    rewrite py_slice_nth by (assumption || lia). reflexivity.
  - intros (j & Hj & <-). exists (get l j). split; [reflexivity|].
    replace j with (lo + Z.of_nat (Z.to_nat (j - lo))) by lia.
    rewrite <- py_slice_nth with (hi := hi) by (assumption || lia).
    apply nth_In. rewrite py_slice_length by assumption. lia.
Qed.

Lemma is_min_of_unique a b s lo hi : is_min_of a s lo hi -> is_min_of b s lo hi -> a = b.
Proof.
  intros [(j & Hj & Ej) La] [(k & Hk & Ek) Lb].
  specialize (La k Hk). specialize (Lb j Hj). lia.
Qed.

Lemma is_max_of_unique a b s lo hi : is_max_of a s lo hi -> is_max_of b s lo hi -> a = b.
Proof.
  intros [(j & Hj & Ej) La] [(k & Hk & Ek) Lb].
  specialize (La k Hk). specialize (Lb j Hj). lia.
Qed.

Lemma is_min_of_range mn s lo hi : is_min_of mn s lo hi -> 0 <= mn < 4096.
Proof. intros [(j & _ & <-) _]. apply amplitude_range. Qed.

Lemma is_max_of_range mx s lo hi : is_max_of mx s lo hi -> 0 <= mx < 4096.
Proof. intros [(j & _ & <-) _]. apply amplitude_range. Qed.

Lemma min_le_max mn mx s lo hi : is_min_of mn s lo hi -> is_max_of mx s lo hi -> mn <= mx.
Proof.
  intros [(j & Hj & Ej) La] [_ Lb]. specialize (Lb j Hj). lia.
Qed.

(** [np.min] and [np.max] of a non-empty window. *)
Lemma window_min_max (l : list Z) lo hi :
  0 <= lo < hi -> hi <= py_len l ->
  exists mn mx,
    np_min (map amplitude (py_slice l lo hi)) = Some mn /\
    np_max (map amplitude (py_slice l lo hi)) = Some mx /\
    is_min_of mn l lo hi /\ is_max_of mx l lo hi.
Proof.
  intros H1 H2.
  assert (Hne : map amplitude (py_slice l lo hi) <> []).
  { intros E. apply (f_equal (@length Z)) in E.
    rewrite length_map, py_slice_length in E by lia. cbn in E. lia. }
  destruct (np_min_spec _ Hne) as (mn & Emn & Imn & Lmn).
  destruct (np_max_spec _ Hne) as (mx & Emx & Imx & Lmx).
  exists mn, mx. repeat split; try assumption.
  - apply in_window in Imn; [exact Imn|lia|lia].
  - intros j Hj. apply Lmn, in_window; [lia|lia|]. now exists j.
  - apply in_window in Imx; [exact Imx|lia|lia].
  - intros j Hj. apply Lmx, in_window; [lia|lia|]. now exists j.
Qed.

(** ** Decoder *)

Lemma byte_val_range b : 0 <= byte_val b < 256.
Proof. unfold byte_val. pose proof (Byte.to_N_bounded b). lia. Qed.

Lemma frombuffer_even k : forall buf,
  length buf = (2 * k)%nat ->
  exists l, frombuffer_u2le buf = Some l /\ length l = k /\
            forall i, (i < k)%nat ->
                      nth i l 0 = byte_val (nth (2 * i) buf x00)
                                  + 256 * byte_val (nth (2 * i + 1) buf x00).
Proof.
  induction k as [|k IH]; intros buf Hlen.
  - destruct buf; [|discriminate]. exists []. repeat split. intros i Hi. lia.
  - destruct buf as [|lo [|hi rest]]; try (cbn in Hlen; lia).
    destruct (IH rest) as (l & E & Hl & Hnth); [cbn in Hlen; lia|].
    cbn [frombuffer_u2le]. rewrite E.
    exists ((byte_val lo + 256 * byte_val hi) :: l). split; [reflexivity|].
    split; [cbn; lia|].
    intros [|i] Hi; [reflexivity|].
    replace (2 * S i)%nat with (S (S (2 * i))) by lia.
    replace (S (S (2 * i)) + 1)%nat with (S (S (2 * i + 1))) by lia.
    cbn [nth]. apply Hnth. lia.
Qed.

(** The decode stage on a non-negative header size: no error, one sample per
    little-endian byte pair of the body, an odd last byte dropped. *)
Lemma decode_total data h :
  0 <= h ->
  exists samples,
    decode data h = Some samples /\
    py_slice_from data h = skipn (Z.to_nat h) data /\
    py_len (py_slice_from data h) = Z.max 0 (py_len data - h) /\
    py_len samples = py_len (py_slice_from data h) / 2 /\
    (forall i, 0 <= i < py_len samples ->
               get samples i = byte_val (nth (Z.to_nat (h + 2 * i)) data x00)
                               + 256 * byte_val (nth (Z.to_nat (h + 2 * i + 1)) data x00)) /\
    (forall i, 0 <= get samples i < 65536) /\
    (py_len data <= h -> samples = []).
Proof.
  intros Hh. unfold decode.
  assert (Eb : py_slice_from data h = skipn (Z.to_nat h) data).
  { unfold py_slice_from, py_norm. destruct (Z.ltb_spec h 0); [lia|].
    destruct (Z.min_spec h (py_len data)) as [[_ ->]|[Hge ->]]; [reflexivity|].
    unfold py_len in *. rewrite Nat2Z.id.
    rewrite !skipn_all2 by lia. reflexivity. }
  assert (El : py_len (py_slice_from data h) = Z.max 0 (py_len data - h)).
  { rewrite Eb. unfold py_len. rewrite length_skipn. lia. }
  set (body := py_slice_from data h) in *.
  set (tail := if negb (py_len body mod 2 =? 0) then py_slice_to body (-1) else body).
  pose proof (Z.div_mod (py_len body) 2 ltac:(lia)) as Hdm.
  pose proof (Z.mod_pos_bound (py_len body) 2 ltac:(lia)) as Hmod.
  pose proof (py_len_nonneg body) as Hbl.
  assert (Ht : length tail = (2 * Z.to_nat (py_len body / 2))%nat /\
               forall i, (i < length tail)%nat -> nth i tail x00 = nth i body x00).
  { subst tail. destruct (Z.eqb_spec (py_len body mod 2) 0) as [E0|E1]; cbn [negb].
    - split; [unfold py_len in *; lia|reflexivity].
    - unfold py_slice_to, py_norm. cbn [Z.ltb Z.compare].
      rewrite length_firstn. split; [unfold py_len in *; lia|].
      intros i Hi. rewrite nth_firstn.
      destruct (Nat.ltb_spec i (Z.to_nat (Z.max 0 (-1 + py_len body)))); [reflexivity|].
      unfold py_len in *. lia. }
  destruct Ht as [Htl Htn].
  destruct (frombuffer_even _ _ Htl) as (samples & E & Hl & Hnth).
  exists samples. split; [exact E|]. split; [exact Eb|]. split; [exact El|].
  assert (Hlen : py_len samples = py_len body / 2) by (unfold py_len at 1; lia).
  split; [exact Hlen|]. split; [|split].
  - intros i Hi. unfold get. rewrite Hnth by lia.
    rewrite !Htn by lia. rewrite Eb, !nth_skipn.
    repeat f_equal; lia.
  - intros i. unfold get.
    destruct (Nat.lt_ge_cases (Z.to_nat i) (length samples)) as [Hi|Hi].
    + rewrite Hnth by lia.
      pose proof (byte_val_range (nth (2 * Z.to_nat i) tail x00)).
      pose proof (byte_val_range (nth (2 * Z.to_nat i + 1) tail x00)). lia.
    + rewrite nth_overflow by exact Hi. lia.
  - intros Hover. destruct samples; [reflexivity|].
    unfold py_len in Hlen at 1. cbn [length] in Hlen. lia.
Qed.

(** ** One iteration on valid parameters *)

Lemma int64_bound_ge len : 2 ^ 63 <= int64_bound len /\ 4 * len <= int64_bound len.
Proof. unfold int64_bound. split; lia. Qed.

Lemma wrap_fits b z : 0 < b -> - b <= z < b -> wrap b z = z.
Proof.
  intros Hb Hz. unfold wrap. rewrite Z.mod_small by lia. lia.
Qed.

Lemma wrap_over b z : 0 < b -> b <= z < 3 * b -> wrap b z = z - 2 * b.
Proof.
  intros Hb Hz. unfold wrap.
  replace (z + b) with ((z + b - 2 * b) + 1 * (2 * b)) by lia.
  rewrite Z_mod_plus_full, Z.mod_small by lia. lia.
Qed.

Lemma fits_true b z : - b <= z < b -> fits b z = true.
Proof. intros H. unfold fits. apply andb_true_intro. split; [apply Z.leb_le|apply Z.ltb_lt]; lia. Qed.

Lemma fits_false b z : b <= z -> fits b z = false.
Proof. intros H. unfold fits. apply andb_false_intro2, Z.ltb_ge. exact H. Qed.

Lemma Next_inj s iv i s' iv' i' :
  Next s iv i = Next s' iv' i' -> s = s' /\ iv = iv' /\ i = i'.
Proof. intros H. injection H as -> -> ->. auto. Qed.

Lemma py_min_value a len : int_value (py_min a len) = Z.min (int_value a) len.
Proof. unfold py_min. destruct (Z.ltb_spec len (int_value a)); cbn [int_value]; lia. Qed.

Lemma assign_from_noop l : forall i lo hi v, hi <= lo -> assign_from l i lo hi v = l.
Proof.
  induction l as [|x r IH]; intros i lo hi v H; cbn [assign_from]; [reflexivity|].
  rewrite IH by exact H.
  destruct (Z.leb_spec lo i), (Z.ltb_spec i hi); cbn [andb]; try reflexivity. lia.
Qed.

Section ValidParameters.

Variables header_size trailer_size sample_rate : Z.
Hypothesis header_nonneg : 0 <= header_size.
Hypothesis trailer_nonneg : 0 <= trailer_size.
Hypothesis rate_pos : 1 <= sample_rate.

#[local] Abbreviation n := (n_per_20s sample_rate).
#[local] Abbreviation R := (region_samples header_size trailer_size).
#[local] Abbreviation body := (loop_body header_size trailer_size sample_rate).
#[local] Abbreviation loop := (while_loop header_size trailer_size sample_rate).
#[local] Abbreviation runs := (run header_size trailer_size sample_rate).
#[local] Abbreviation ok := (cursor_ok sample_rate).
#[local] Abbreviation bound := (fun s : list Z => int64_bound (py_len s)).
#[local] Abbreviation mask := (mask_from header_size trailer_size).

Lemma window_len_ge_20 : 20 <= n.
Proof. unfold n_per_20s. lia. Qed.

Lemma region_nonneg : 0 <= R.
Proof. unfold region_samples. apply Z.div_pos; lia. Qed.

(** The loop test computes [idx + n_per_20s] without overflow. *)
Lemma loop_test_ok s idx :
  ok s idx ->
  exists stop, add_pyint (bound s) idx n = Some stop /\
               int_value stop = int_value idx + n.
Proof.
  intros [Hidx Hty]. pose proof window_len_ge_20 as Hn.
  destruct idx as [z|z]; cbn [add_pyint int_value] in *.
  - eexists. split; reflexivity.
  - destruct Hty as [Hz Hlen].
    destruct (int64_bound_ge (py_len s)) as [B1 B2].
    rewrite fits_true by lia. eexists. split; [reflexivity|].
    cbn [int_value]. apply wrap_fits; lia.
Qed.

(** What one pass of the loop body does, in exact arithmetic: it breaks when
    no sample after the window is outside the band, and otherwise masks from
    the first such sample. *)
Lemma loop_body_spec samples idx :
  ok samples idx -> int_value idx + n < py_len samples ->
  exists mn mx,
    is_min_of mn samples (int_value idx) (int_value idx + n) /\
    is_max_of mx samples (int_value idx) (int_value idx + n) /\
    ((body samples idx = Break /\
      forall j, int_value idx + n <= j < py_len samples ->
                outlier_exact mn mx (amplitude (get samples j)) = false)
     \/
     (exists f r,
        int_value idx + n <= f < py_len samples /\
        outlier_exact mn mx (amplitude (get samples f)) = true /\
        (forall j, int_value idx + n <= j < f ->
                   outlier_exact mn mx (amplitude (get samples j)) = false) /\
        replacement_for mn = Some r /\
        0 <= r < 4096 /\
        body samples idx = mask samples f r)).
Proof.
  intros Hok Hlen. pose proof window_len_ge_20 as Hn.
  pose proof Hok as [Hidx Hty].
  destruct (loop_test_ok samples idx Hok) as (stop & Estop & Vstop).
  destruct (window_min_max samples (int_value idx) (int_value idx + n))
    as (mn & mx & Emn & Emx & Hmin & Hmax); [lia|lia|].
  exists mn, mx. split; [exact Hmin|]. split; [exact Hmax|].
  pose proof (is_min_of_range _ _ _ _ Hmin) as Rmn.
  pose proof (is_max_of_range _ _ _ _ Hmax) as Rmx.
  unfold loop_body. rewrite Estop, Vstop, Emn, Emx. unfold np_where.
  destruct (where_from _ _ _) as [|o rest] eqn:W.
  - left. split; [reflexivity|]. intros j Hj.
    pose proof (where_from_nil _ _ _ W (Z.to_nat (j - (int_value idx + n)))) as H.
    rewrite py_slice_from_length, py_slice_from_nth in H by lia.
    rewrite is_outlier_exact in H by assumption.
    replace (int_value idx + n + Z.of_nat (Z.to_nat (j - (int_value idx + n)))) with j in H
      by lia.
    apply H. lia.
  - right. destruct (where_from_cons _ _ _ _ _ W) as (k & -> & Hk & Hp & Hbefore).
    rewrite py_slice_from_length in Hk by lia.
    rewrite py_slice_from_nth, is_outlier_exact in Hp by (assumption || lia).
    destruct (replacement_for_spec mn Rmn) as (v & Ev & Er & Rv & _).
    rewrite Z.add_0_l in *.
    exists (int_value idx + n + Z.of_nat k), v.
    split; [lia|]. split; [exact Hp|]. split.
    + intros j Hj. specialize (Hbefore (Z.to_nat (j - (int_value idx + n)))).
      rewrite py_slice_from_nth, is_outlier_exact in Hbefore by (assumption || lia).
      replace (int_value idx + n + Z.of_nat (Z.to_nat (j - (int_value idx + n)))) with j
        in Hbefore by lia.
      apply Hbefore. lia.
    + split; [exact Er|]. split; [exact Rv|].
      destruct (int64_bound_ge (py_len samples)) as [B1 B2].
      assert (Ef : add_int64 (bound samples) stop (Z.of_nat k)
                   = Some (Int64 (int_value idx + n + Z.of_nat k))).
      { destruct stop as [z|z]; cbn [add_int64 int_value] in *; subst z.
        - rewrite fits_true by lia. rewrite wrap_fits by lia. reflexivity.
        - rewrite wrap_fits by lia. reflexivity. }
      rewrite Ef. unfold mask_from.
      destruct (add_pyint _ (Int64 _) _) as [region_end|]; [|reflexivity].
      rewrite Ev. cbn [int_value].
      change (Z.land v 0x0FFF) with (amplitude v). rewrite amplitude_small by exact Rv.
      reflexivity.
Qed.

(** The three ways the masking lines can go. *)
Lemma mask_overflow samples f r :
  int64_bound (py_len samples) <= R -> mask samples f r = Fail OverflowError.
Proof.
  intros H. unfold mask_from. cbn [add_pyint]. rewrite fits_false by exact H. reflexivity.
Qed.

Lemma mask_exact samples f r :
  0 <= f < py_len samples -> f + R < int64_bound (py_len samples) ->
  mask samples f r =
    Next (np_slice_assign samples f (Z.min (f + R) (py_len samples)) r)
         (mkInterval f (Z.min (f + R) (py_len samples)) r)
         (py_min (Int64 (f + R)) (py_len samples)).
Proof.
  intros Hf Hfit. pose proof region_nonneg as HR.
  destruct (int64_bound_ge (py_len samples)) as [B1 B2].
  unfold mask_from. cbn [add_pyint]. rewrite fits_true by lia.
  rewrite wrap_fits by lia. rewrite py_min_value. reflexivity.
Qed.

Lemma mask_wrapped samples f r :
  0 <= f < py_len samples ->
  R < int64_bound (py_len samples) -> int64_bound (py_len samples) <= f + R ->
  mask samples f r =
    Next samples
         (mkInterval f (f + R - 2 * int64_bound (py_len samples)) r)
         (Int64 (f + R - 2 * int64_bound (py_len samples))).
Proof.
  intros Hf HR Hover. pose proof region_nonneg as HR0.
  destruct (int64_bound_ge (py_len samples)) as [B1 B2].
  set (b := int64_bound (py_len samples)) in *.
  unfold mask_from. cbn [add_pyint]. fold b. rewrite fits_true by lia.
  rewrite wrap_over by lia.
  assert (Em : py_min (Int64 (f + R - 2 * b)) (py_len samples) = Int64 (f + R - 2 * b)).
  { unfold py_min. cbn [int_value]. destruct (Z.ltb_spec (py_len samples) (f + R - 2 * b)); [lia|reflexivity]. }
  rewrite Em. cbn [int_value]. f_equal.
  unfold np_slice_assign. apply assign_from_noop.
  unfold py_norm.
  destruct (Z.ltb_spec (f + R - 2 * b) 0), (Z.ltb_spec f 0); lia.
Qed.

Lemma loop_body_break_inv samples idx :
  ok samples idx -> int_value idx + n < py_len samples -> body samples idx = Break ->
  exists mn mx,
    is_min_of mn samples (int_value idx) (int_value idx + n) /\
    is_max_of mx samples (int_value idx) (int_value idx + n) /\
    forall j, int_value idx + n <= j < py_len samples ->
              outlier_exact mn mx (amplitude (get samples j)) = false.
Proof.
  intros Hok Hlen E.
  destruct (loop_body_spec samples idx Hok Hlen)
    as (mn & mx & Hmin & Hmax & [[_ H]|(f & r & _ & _ & _ & _ & _ & E')]).
  - now exists mn, mx.
  - rewrite E in E'. unfold mask_from in E'.
    destruct (add_pyint _ _ _); discriminate.
Qed.

(** A pass that masks and leaves a cursor that is not negative: the sum
    [first_outlier + region_samples] did not overflow. *)
Lemma loop_body_next_inv samples idx s1 iv idx1 :
  ok samples idx -> int_value idx + n < py_len samples ->
  body samples idx = Next s1 iv idx1 -> 0 <= int_value idx1 ->
  exists mn mx,
    is_min_of mn samples (int_value idx) (int_value idx + n) /\
    is_max_of mx samples (int_value idx) (int_value idx + n) /\
    int_value idx + n <= start_index iv < py_len samples /\
    outlier_exact mn mx (amplitude (get samples (start_index iv))) = true /\
    (forall j, int_value idx + n <= j < start_index iv ->
               outlier_exact mn mx (amplitude (get samples j)) = false) /\
    replacement_for mn = Some (replacement_value iv) /\
    end_index iv = Z.min (start_index iv + R) (py_len samples) /\
    int_value idx1 = end_index iv /\
    s1 = np_slice_assign samples (start_index iv) (end_index iv) (replacement_value iv) /\
    ok s1 idx1.
Proof.
  intros Hok Hlen E Hpos. pose proof window_len_ge_20 as Hn.
  pose proof region_nonneg as HR. pose proof Hok as [Hidx _].
  destruct (int64_bound_ge (py_len samples)) as [B1 B2].
  destruct (loop_body_spec samples idx Hok Hlen)
    as (mn & mx & Hmin & Hmax & [[E' _]|(f & r & Hf & Ho & Hb & Hr & Rr & E')]);
    rewrite E in E'; [discriminate|].
  destruct (Z.le_gt_cases (int64_bound (py_len samples)) R) as [Hbig|Hsmall].
  { rewrite mask_overflow in E' by exact Hbig. discriminate. }
  destruct (Z.le_gt_cases (int64_bound (py_len samples)) (f + R)) as [Hover|Hfit].
  { rewrite mask_wrapped in E' by lia. apply Next_inj in E' as (_ & _ & ->).
    cbn [int_value] in Hpos. lia. }
  rewrite mask_exact in E' by lia. apply Next_inj in E' as (-> & -> & ->).
  exists mn, mx. cbn [start_index end_index replacement_value].
  repeat (split; [first [assumption | lia | reflexivity]|]).
  split; [apply py_min_value|]. split; [reflexivity|].
  unfold cursor_ok. rewrite np_slice_assign_len, py_min_value. cbn [int_value].
  split; [lia|].
  unfold py_min. cbn [int_value].
  destruct (Z.ltb_spec (py_len samples) (f + R)); [exact I|]. lia.
Qed.

(** The facts about such a pass, without the band. *)
Lemma loop_body_next_shape samples idx s1 iv idx1 :
  ok samples idx -> int_value idx + n < py_len samples ->
  body samples idx = Next s1 iv idx1 -> 0 <= int_value idx1 ->
  int_value idx + n <= start_index iv < py_len samples /\
  start_index iv <= end_index iv <= py_len samples /\
  int_value idx1 = end_index iv /\
  0 <= replacement_value iv < 4096 /\
  py_len s1 = py_len samples /\
  ok s1 idx1 /\
  forall j, 0 <= j < py_len samples ->
            get s1 j = if (start_index iv <=? j) && (j <? end_index iv)
                       then replacement_value iv else get samples j.
Proof.
  intros Hok Hlen E Hpos. pose proof Hok as [Hidx _].
  destruct (loop_body_next_inv _ _ _ _ _ Hok Hlen E Hpos)
    as (mn & mx & Hmin & _ & Hs & _ & _ & Hr & He & Hi & -> & Hok1).
  pose proof region_nonneg as HR. pose proof window_len_ge_20 as Hn.
  destruct (replacement_for_spec mn (is_min_of_range _ _ _ _ Hmin)) as (v & _ & Ev & Rv & _).
  rewrite Hr in Ev. injection Ev as Ev.
  repeat (split; [first [assumption | lia]|]). split; [|split; [exact Hok1|]].
  - apply np_slice_assign_len.
  - intros j Hj. apply np_slice_assign_get; lia.
Qed.

(** A pass whose sum [first_outlier + region_samples] overflowed: nothing is
    written and the cursor is far below zero. *)
Lemma loop_body_next_wrapped samples idx s1 iv idx1 :
  ok samples idx -> int_value idx + n < py_len samples ->
  body samples idx = Next s1 iv idx1 -> int_value idx1 < 0 ->
  s1 = samples /\
  exists z, idx1 = Int64 z /\ end_index iv = z /\
            - int64_bound (py_len samples) <= z
            < py_len samples - int64_bound (py_len samples) /\
            int_value idx + n <= start_index iv < py_len samples /\
            int64_bound (py_len samples) <= start_index iv + R.
Proof.
  intros Hok Hlen E Hneg. pose proof window_len_ge_20 as Hn.
  pose proof region_nonneg as HR. pose proof Hok as [Hidx _].
  destruct (int64_bound_ge (py_len samples)) as [B1 B2].
  destruct (loop_body_spec samples idx Hok Hlen)
    as (mn & mx & Hmin & Hmax & [[E' _]|(f & r & Hf & Ho & Hb & Hr & Rr & E')]);
    rewrite E in E'; [discriminate|].
  destruct (Z.le_gt_cases (int64_bound (py_len samples)) R) as [Hbig|Hsmall].
  { rewrite mask_overflow in E' by exact Hbig. discriminate. }
  destruct (Z.le_gt_cases (int64_bound (py_len samples)) (f + R)) as [Hover|Hfit].
  - rewrite mask_wrapped in E' by lia. apply Next_inj in E' as (-> & -> & ->).
    split; [reflexivity|]. eexists. split; [reflexivity|].
    cbn [start_index end_index]. repeat split; lia.
  - rewrite mask_exact in E' by lia. apply Next_inj in E' as (_ & _ & ->).
    rewrite py_min_value in Hneg. cbn [int_value] in Hneg. lia.
Qed.

Lemma loop_body_break_intro samples idx mn mx :
  ok samples idx -> int_value idx + n < py_len samples ->
  is_min_of mn samples (int_value idx) (int_value idx + n) ->
  is_max_of mx samples (int_value idx) (int_value idx + n) ->
  (forall j, int_value idx + n <= j < py_len samples ->
             outlier_exact mn mx (amplitude (get samples j)) = false) ->
  body samples idx = Break.
Proof.
  intros Hok Hlen Hmin Hmax Hno.
  destruct (loop_body_spec samples idx Hok Hlen)
    as (mn' & mx' & Hmin' & Hmax' & [[E _]|(f & r & Hf & Ho & _)]); [exact E|].
  rewrite (is_min_of_unique _ _ _ _ _ Hmin' Hmin) in Ho.
  rewrite (is_max_of_unique _ _ _ _ _ Hmax' Hmax) in Ho.
  rewrite Hno in Ho by exact Hf. discriminate.
Qed.

Lemma loop_body_next_intro samples idx mn mx f r :
  ok samples idx -> int_value idx + n < py_len samples ->
  is_min_of mn samples (int_value idx) (int_value idx + n) ->
  is_max_of mx samples (int_value idx) (int_value idx + n) ->
  int_value idx + n <= f < py_len samples ->
  outlier_exact mn mx (amplitude (get samples f)) = true ->
  (forall j, int_value idx + n <= j < f ->
             outlier_exact mn mx (amplitude (get samples j)) = false) ->
  replacement_for mn = Some r ->
  body samples idx = mask samples f r.
Proof.
  intros Hok Hlen Hmin Hmax Hf Ho Hb Hr.
  destruct (loop_body_spec samples idx Hok Hlen)
    as (mn' & mx' & Hmin' & Hmax' & [[_ Hno]|(f' & r' & Hf' & Ho' & Hb' & Hr' & _ & E)]).
  - rewrite (is_min_of_unique _ _ _ _ _ Hmin' Hmin) in Hno.
    rewrite (is_max_of_unique _ _ _ _ _ Hmax' Hmax) in Hno.
    rewrite Hno in Ho by exact Hf. discriminate.
  - pose proof (is_min_of_unique _ _ _ _ _ Hmin' Hmin) as ->.
    pose proof (is_max_of_unique _ _ _ _ _ Hmax' Hmax) as ->.
    assert (f' = f) as ->.
    { destruct (Z.lt_trichotomy f' f) as [L|[->|G]]; [|reflexivity|].
      - rewrite Hb in Ho' by lia. discriminate.
      - rewrite Hb' in Ho by lia. discriminate. }
    rewrite Hr in Hr'. injection Hr' as <-. exact E.
Qed.

(** ** The loop *)

Lemma ok_zero s : ok s (PyInt 0).
Proof. split; [cbn; lia|exact I]. Qed.

(** With a cursor the loop can hold, the loop test is the exact comparison. *)
Lemma while_loop_unfold fuel s idx acc :
  ok s idx ->
  loop fuel s idx acc =
    if int_value idx + n <? py_len s then
      match fuel with
      | O => OutOfFuel
      | S fuel' =>
          match body s idx with
          | Break => Done s acc
          | Fail e => Raised e
          | Next s1 iv idx1 => loop fuel' s1 idx1 (acc ++ [iv])
          end
      end
    else Done s acc.
Proof.
  intros Hok. destruct (loop_test_ok s idx Hok) as (stop & E & V).
  destruct fuel; cbn [while_loop]; rewrite E, V; reflexivity.
Qed.

(** Whatever the parameters, the regions of a returning loop extend the
    list it was entered with. *)
Lemma while_loop_prefix fuel : forall s idx acc s' out,
  loop fuel s idx acc = Done s' out -> exists regions, out = acc ++ regions.
Proof.
  induction fuel as [|fuel IH]; intros s idx acc s' out; cbn [while_loop];
    destruct (add_pyint _ idx n) as [stop|]; try discriminate;
    destruct (int_value stop <? py_len s); try discriminate; intros H;
    try (injection H as <- <-; exists []; now rewrite app_nil_r).
  destruct (body s idx) as [|e|s1 iv idx1]; try discriminate.
  - injection H as <- <-. exists []. now rewrite app_nil_r.
  - destruct (IH _ _ _ _ _ H) as (regions & ->).
    exists (iv :: regions). now rewrite <- app_assoc.
Qed.

(** After an overflow of [first_outlier + region_samples] the cursor is far
    below zero: the next baseline window is empty and [np.min] raises. *)
Lemma py_slice_below {A} (l : list A) a b :
  a + py_len l <= 0 -> b + py_len l <= 0 -> a < 0 -> b < 0 -> py_slice l a b = [].
Proof.
  intros Ha Hb Ha0 Hb0. unfold py_slice, py_norm.
  destruct (Z.ltb_spec a 0), (Z.ltb_spec b 0); try lia.
  rewrite !Z.max_l by lia. reflexivity.
Qed.

Lemma wrapped_body s z :
  n < py_len s ->
  - int64_bound (py_len s) <= z < py_len s - int64_bound (py_len s) ->
  body s (Int64 z) = Fail ValueError.
Proof.
  intros Hn Hz. pose proof window_len_ge_20 as Hn20.
  destruct (int64_bound_ge (py_len s)) as [B1 B2].
  unfold loop_body. cbn [add_pyint]. rewrite fits_true by lia.
  rewrite wrap_fits by lia. cbn [int_value].
  rewrite py_slice_below by lia. reflexivity.
Qed.

Lemma wrapped_loop fuel s z acc :
  n < py_len s ->
  - int64_bound (py_len s) <= z < py_len s - int64_bound (py_len s) ->
  loop fuel s (Int64 z) acc = match fuel with O => OutOfFuel | S _ => Raised ValueError end.
Proof.
  intros Hn Hz. pose proof window_len_ge_20 as Hn20.
  destruct (int64_bound_ge (py_len s)) as [B1 B2].
  pose proof (wrapped_body s z Hn Hz) as B.
  destruct fuel; cbn [while_loop add_pyint]; rewrite fits_true by lia;
    rewrite wrap_fits by lia; cbn [int_value];
    destruct (Z.ltb_spec (z + n) (py_len s)); try lia; [reflexivity|].
  rewrite B. reflexivity.
Qed.

Lemma wrapped_no_run s z s' regions :
  n < py_len s ->
  - int64_bound (py_len s) <= z < py_len s - int64_bound (py_len s) ->
  ~ runs s (Int64 z) s' regions.
Proof.
  intros Hn Hz Hrun. pose proof window_len_ge_20 as Hn20.
  destruct (int64_bound_ge (py_len s)) as [B1 B2].
  pose proof (wrapped_body s z Hn Hz) as B.
  inversion Hrun; subst; cbn [int_value] in *; try lia; congruence.
Qed.

(** In a returning execution no cursor is negative. *)
Lemma run_next_nonneg s idx s1 iv idx1 s' regions :
  ok s idx -> int_value idx + n < py_len s ->
  body s idx = Next s1 iv idx1 -> runs s1 idx1 s' regions ->
  0 <= int_value idx1.
Proof.
  intros Hok Hc B Hrun. pose proof window_len_ge_20 as Hn. pose proof Hok as [Hidx _].
  destruct (Z.le_gt_cases 0 (int_value idx1)) as [H|H]; [exact H|].
  destruct (loop_body_next_wrapped _ _ _ _ _ Hok Hc B H) as (-> & z & -> & _ & Hz & _).
  exfalso. apply (wrapped_no_run s z s' regions); [lia|exact Hz|exact Hrun].
Qed.

Lemma while_loop_run fuel : forall s idx acc s' out,
  ok s idx ->
  loop fuel s idx acc = Done s' out ->
  exists regions, out = acc ++ regions /\ runs s idx s' regions.
Proof.
  pose proof window_len_ge_20 as Hn.
  induction fuel as [|fuel IH]; intros s idx acc s' out Hok;
    rewrite (while_loop_unfold _ s idx acc Hok);
    destruct (Z.ltb_spec (int_value idx + n) (py_len s)) as [Hc|Hc]; intros H.
  - discriminate.
  - injection H as <- <-. exists []. rewrite app_nil_r. split; [reflexivity|].
    apply run_exit. lia.
  - destruct (body s idx) as [|e|s1 iv idx1] eqn:B.
    + injection H as <- <-. exists []. rewrite app_nil_r. split; [reflexivity|].
      now apply run_break.
    + discriminate.
    + assert (Hok1 : ok s1 idx1).
      { destruct (Z.le_gt_cases 0 (int_value idx1)) as [Hpos|Hneg].
        - apply (loop_body_next_shape _ _ _ _ _ Hok Hc B Hpos).
        - exfalso. pose proof Hok as [Hidx _].
          destruct (loop_body_next_wrapped _ _ _ _ _ Hok Hc B Hneg)
            as (-> & z & -> & _ & Hz & _).
          rewrite wrapped_loop in H by (lia || exact Hz). destruct fuel; discriminate. }
      destruct (IH _ _ _ _ _ Hok1 H) as (regions & -> & Hrun).
      exists (iv :: regions). rewrite <- app_assoc. split; [reflexivity|].
      eapply run_next; eassumption.
  - injection H as <- <-. exists []. rewrite app_nil_r. split; [reflexivity|].
    apply run_exit. lia.
Qed.

(** When [len(samples) + region_samples] is within the [int64] range no
    iteration raises. *)
Lemma loop_body_no_fail samples idx :
  ok samples idx -> int_value idx + n < py_len samples ->
  py_len samples + R <= int64_bound (py_len samples) ->
  body samples idx = Break \/
  exists s1 iv idx1, body samples idx = Next s1 iv idx1 /\ 0 <= int_value idx1.
Proof.
  intros Hok Hc Hfit. pose proof window_len_ge_20 as Hn. pose proof Hok as [Hidx _].
  pose proof region_nonneg as HR.
  destruct (loop_body_spec samples idx Hok Hc)
    as (mn & mx & _ & _ & [[E _]|(f & r & Hf & _ & _ & _ & _ & E)]); [now left|right].
  rewrite mask_exact in E by lia. do 3 eexists. split; [exact E|].
  rewrite py_min_value. cbn [int_value]. lia.
Qed.

(** With fuel for one iteration per sample the loop then ends normally. *)
Lemma while_loop_total fuel : forall s idx acc,
  ok s idx -> py_len s + R <= int64_bound (py_len s) ->
  py_len s - int_value idx <= Z.of_nat fuel ->
  exists s' regions,
    loop fuel s idx acc = Done s' (acc ++ regions) /\ runs s idx s' regions.
Proof.
  pose proof window_len_ge_20 as Hn.
  induction fuel as [|fuel IH]; intros s idx acc Hok Hfit Hfuel;
    rewrite (while_loop_unfold _ s idx acc Hok);
    destruct (Z.ltb_spec (int_value idx + n) (py_len s)) as [Hc|Hc]; try lia.
  - exists s, []. rewrite app_nil_r. split; [reflexivity|]. apply run_exit. lia.
  - destruct (loop_body_no_fail s idx Hok Hc Hfit) as [B|(s1 & iv & idx1 & B & Hpos)];
      rewrite B.
    + exists s, []. rewrite app_nil_r. split; [reflexivity|]. now apply run_break.
    + destruct (loop_body_next_shape _ _ _ _ _ Hok Hc B Hpos)
        as (Hs & He & Hi & _ & Hl & Hok1 & _).
      destruct (IH s1 idx1 (acc ++ [iv])) as (s' & regions & E & Hrun);
        [exact Hok1|rewrite Hl; exact Hfit|lia|].
      exists s', (iv :: regions). rewrite <- app_assoc in E. split; [exact E|].
      eapply run_next; eassumption.
  - exists s, []. rewrite app_nil_r. split; [reflexivity|]. apply run_exit. lia.
Qed.

(** In every case the loop is over after at most one iteration per sample:
    it returns or it raises. *)
Lemma while_loop_stops fuel : forall s idx acc,
  ok s idx -> py_len s - int_value idx <= Z.of_nat fuel ->
  loop fuel s idx acc <> OutOfFuel.
Proof.
  pose proof window_len_ge_20 as Hn.
  induction fuel as [|fuel IH]; intros s idx acc Hok Hfuel;
    rewrite (while_loop_unfold _ s idx acc Hok);
    destruct (Z.ltb_spec (int_value idx + n) (py_len s)) as [Hc|Hc]; try lia;
    try discriminate.
  destruct (body s idx) as [|e|s1 iv idx1] eqn:B; try discriminate.
  pose proof Hok as [Hidx _].
  destruct (Z.le_gt_cases 0 (int_value idx1)) as [Hpos|Hneg].
  - destruct (loop_body_next_shape _ _ _ _ _ Hok Hc B Hpos)
      as (Hs & He & Hi & _ & Hl & Hok1 & _).
    apply IH; [exact Hok1|lia].
  - destruct (loop_body_next_wrapped _ _ _ _ _ Hok Hc B Hneg)
      as (-> & z & -> & _ & Hz & _).
    rewrite wrapped_loop by (lia || exact Hz).
    destruct fuel; [lia|discriminate].
Qed.

Lemma run_len s idx s' regions :
  runs s idx s' regions -> ok s idx -> py_len s' = py_len s.
Proof.
  induction 1 as [| |s idx s1 iv idx1 s' regions Hc B Hrun IH]; intros Hok;
    try reflexivity.
  pose proof (run_next_nonneg _ _ _ _ _ _ _ Hok Hc B Hrun) as Hpos.
  destruct (loop_body_next_shape _ _ _ _ _ Hok Hc B Hpos) as (Hs & He & Hi & _ & Hl & Hok1 & _).
  rewrite IH by exact Hok1. exact Hl.
Qed.

Lemma run_chain s idx s' regions :
  runs s idx s' regions -> ok s idx ->
  chain sample_rate (py_len s) (int_value idx) regions.
Proof.
  induction 1 as [| |s idx s1 iv idx1 s' regions Hc B Hrun IH]; intros Hok;
    try apply chain_nil.
  pose proof (run_next_nonneg _ _ _ _ _ _ _ Hok Hc B Hrun) as Hpos.
  destruct (loop_body_next_shape _ _ _ _ _ Hok Hc B Hpos) as (Hs & He & Hi & _ & Hl & Hok1 & _).
  apply chain_cons; try lia. rewrite <- Hl, <- Hi. apply IH. exact Hok1.
Qed.

(** Nothing below the end of the current baseline window is written. *)
Lemma run_prefix s idx s' regions :
  runs s idx s' regions -> ok s idx ->
  forall j, 0 <= j < int_value idx + n -> get s' j = get s j.
Proof.
  induction 1 as [| |s idx s1 iv idx1 s' regions Hc B Hrun IH]; intros Hok j Hj;
    try reflexivity.
  pose proof (run_next_nonneg _ _ _ _ _ _ _ Hok Hc B Hrun) as Hpos.
  destruct (loop_body_next_shape _ _ _ _ _ Hok Hc B Hpos)
    as (Hs & He & Hi & _ & Hl & Hok1 & Hg).
  pose proof window_len_ge_20.
  rewrite IH by (exact Hok1 || lia). rewrite Hg by lia.
  destruct (Z.leb_spec (start_index iv) j); [lia|]. reflexivity.
Qed.

Lemma run_frame s idx s' regions :
  runs s idx s' regions -> ok s idx ->
  forall j, 0 <= j < py_len s ->
            (forall iv, In iv regions -> ~ in_interval iv j) ->
            get s' j = get s j.
Proof.
  induction 1 as [| |s idx s1 iv idx1 s' regions Hc B Hrun IH]; intros Hok j Hj Hout;
    try reflexivity.
  pose proof (run_next_nonneg _ _ _ _ _ _ _ Hok Hc B Hrun) as Hpos.
  destruct (loop_body_next_shape _ _ _ _ _ Hok Hc B Hpos)
    as (Hs & He & Hi & _ & Hl & Hok1 & Hg).
  pose proof window_len_ge_20.
  rewrite IH; [|exact Hok1|lia|intros iv' Hin; apply Hout; now right].
  rewrite Hg by lia.
  pose proof (Hout iv (or_introl eq_refl)) as Hiv. unfold in_interval in Hiv.
  destruct (Z.leb_spec (start_index iv) j), (Z.ltb_spec j (end_index iv)); cbn; lia || reflexivity.
Qed.

Lemma run_mask s idx s' regions :
  runs s idx s' regions -> ok s idx ->
  forall iv j, In iv regions -> in_interval iv j ->
               get s' j = replacement_value iv /\ 0 <= replacement_value iv < 4096.
Proof.
  induction 1 as [| |s idx s1 iv0 idx1 s' regions Hc B Hrun IH]; intros Hok iv j Hin Hj;
    try contradiction.
  pose proof (run_next_nonneg _ _ _ _ _ _ _ Hok Hc B Hrun) as Hpos.
  destruct (loop_body_next_shape _ _ _ _ _ Hok Hc B Hpos)
    as (Hs & He & Hi & Hr & Hl & Hok1 & Hg).
  pose proof window_len_ge_20. pose proof Hok as [Hidx _].
  destruct Hin as [<-|Hin]; [|apply IH; assumption].
  unfold in_interval in Hj. split; [|exact Hr].
  rewrite (run_prefix _ _ _ _ Hrun Hok1) by lia.
  rewrite Hg by lia.
  destruct (Z.leb_spec (start_index iv0) j), (Z.ltb_spec j (end_index iv0)); cbn; lia || reflexivity.
Qed.

Lemma last_cons (l : list Z) : forall a d, last (a :: l) d = last l a.
Proof.
  induction l as [|b l IH]; intros a d; [reflexivity|].
  change (last (a :: b :: l) d) with (last (b :: l) d).
  now rewrite !IH.
Qed.

Lemma cursor_after_cons idx iv pre :
  cursor_after idx (iv :: pre) = cursor_after (end_index iv) pre.
Proof. unfold cursor_after. cbn [map]. apply last_cons. Qed.

Lemma is_min_of_ext mn s s' lo hi :
  (forall j, lo <= j < hi -> get s' j = get s j) ->
  is_min_of mn s lo hi -> is_min_of mn s' lo hi.
Proof.
  intros E [(j & Hj & Ej) L]. split.
  - exists j. rewrite E by exact Hj. now split.
  - intros k Hk. rewrite E by exact Hk. now apply L.
Qed.

Lemma is_max_of_ext mx s s' lo hi :
  (forall j, lo <= j < hi -> get s' j = get s j) ->
  is_max_of mx s lo hi -> is_max_of mx s' lo hi.
Proof.
  intros E [(j & Hj & Ej) L]. split.
  - exists j. rewrite E by exact Hj. now split.
  - intros k Hk. rewrite E by exact Hk. now apply L.
Qed.

(** The value written into a region comes from the baseline window that
    starts at the cursor left by the regions before it; that window is the
    same in the final sequence. *)
Lemma run_replacement s idx s' regions :
  runs s idx s' regions -> ok s idx ->
  forall pre iv post, regions = pre ++ iv :: post ->
    exists mn, is_min_of mn s' (cursor_after (int_value idx) pre)
                         (cursor_after (int_value idx) pre + n) /\
               replacement_for mn = Some (replacement_value iv).
Proof.
  induction 1 as [| |s idx s1 iv0 idx1 s' regions Hc B Hrun IH]; intros Hok pre iv post E;
    try (destruct pre; discriminate).
  pose proof window_len_ge_20 as Hn. pose proof Hok as [Hidx _].
  pose proof (run_next_nonneg _ _ _ _ _ _ _ Hok Hc B Hrun) as Hpos.
  destruct pre as [|p pre]; cbn [app] in E; injection E as -> ->.
  - destruct (loop_body_next_inv _ _ _ _ _ Hok Hc B Hpos)
      as (mn & mx & Hmin & _ & _ & _ & _ & Hr & _).
    exists mn. split; [|exact Hr].
    change (cursor_after (int_value idx) []) with (int_value idx).
    apply (is_min_of_ext mn s); [|exact Hmin].
    intros j Hj.
    apply (run_prefix s idx s' (iv :: post)); [|exact Hok|lia].
    eapply run_next; eassumption.
  - destruct (loop_body_next_shape _ _ _ _ _ Hok Hc B Hpos) as (Hs & He & Hi & _ & _ & Hok1 & _).
    rewrite cursor_after_cons, <- Hi. apply (IH Hok1 pre iv post eq_refl).
Qed.

Lemma chain_In len idx regions :
  chain sample_rate len idx regions ->
  forall iv, In iv regions ->
             idx + n <= start_index iv /\ start_index iv < len /\
             start_index iv <= end_index iv <= len.
Proof.
  pose proof window_len_ge_20 as Hn.
  induction 1 as [|idx iv0 regions H1 H2 H3 H4 Hch IH]; intros iv Hin; [contradiction|].
  destruct Hin as [<-|Hin]; [lia|]. specialize (IH iv Hin). lia.
Qed.

Lemma chain_tail len regions1 : forall idx iv regions2,
  chain sample_rate len idx (regions1 ++ iv :: regions2) ->
  chain sample_rate len (end_index iv) regions2.
Proof.
  induction regions1 as [|p regions1 IH]; intros idx iv regions2 H; cbn [app] in H;
    inversion H; subst.
  - assumption.
  - eapply IH. eassumption.
Qed.

(** Regions in order of discovery: a later one starts at least a baseline
    window after the end of an earlier one. *)
Lemma chain_ordered len idx l1 i l2 j l3 :
  chain sample_rate len idx (l1 ++ i :: l2 ++ j :: l3) ->
  start_index i <= end_index i /\ end_index i + n <= start_index j.
Proof.
  intros H. split.
  - apply (chain_In _ _ _ H). apply in_or_app. right. now left.
  - apply chain_tail in H. apply (chain_In _ _ _ H). apply in_or_app. right. now left.
Qed.

(** ** The scanner on valid parameters *)

#[local] Abbreviation scanner := (scan header_size trailer_size sample_rate).

Lemma scan_total fuel samples :
  py_len samples + R <= int64_bound (py_len samples) ->
  (length samples <= fuel)%nat ->
  exists s' regions,
    scanner fuel samples = Done s' regions /\ runs samples (PyInt 0) s' regions.
Proof.
  intros Hfit Hfuel.
  destruct (while_loop_total fuel samples (PyInt 0) [])
    as (s' & regions & E & Hrun);
    [apply ok_zero|exact Hfit|unfold py_len; cbn [int_value]; lia|].
  exists s', regions. split; [exact E|exact Hrun].
Qed.

Lemma scan_stops fuel samples :
  (length samples <= fuel)%nat -> scanner fuel samples <> OutOfFuel.
Proof.
  intros Hfuel. apply while_loop_stops; [apply ok_zero|].
  unfold py_len; cbn [int_value]; lia.
Qed.

Lemma scan_run fuel samples s' regions :
  scanner fuel samples = Done s' regions -> runs samples (PyInt 0) s' regions.
Proof.
  intros E. apply while_loop_run in E as (regions' & -> & Hrun); [exact Hrun|apply ok_zero].
Qed.

Lemma run_deterministic s idx s1 r1 :
  runs s idx s1 r1 -> forall s2 r2, runs s idx s2 r2 -> s1 = s2 /\ r1 = r2.
Proof.
  induction 1 as [s idx Hc|s idx Hc B|s idx sa iv idxa s1 r1 Hc B Hrun IH];
    intros s2 r2 H2; inversion H2; subst; try (split; reflexivity); try contradiction;
    try congruence.
  match goal with
  | H : loop_body _ _ _ s idx = Next _ _ _ |- _ =>
      rewrite B in H; apply Next_inj in H as (<- & <- & <-)
  end.
  match goal with
  | H : run _ _ _ sa idxa _ _ |- _ => destruct (IH _ _ H) as [-> ->]
  end.
  split; reflexivity.
Qed.

(** A returning scan gives the same result with any other fuel that lets
    it return. *)
Lemma scan_fuel_independent fuel fuel' samples s1 r1 s2 r2 :
  scanner fuel samples = Done s1 r1 -> scanner fuel' samples = Done s2 r2 ->
  s1 = s2 /\ r1 = r2.
Proof.
  intros E1 E2. apply scan_run in E1, E2. exact (run_deterministic _ _ _ _ E1 _ _ E2).
Qed.

(** A rescan that starts in a band-clean sequence stops at once; otherwise
    it masks. *)
Lemma scan_quiet_iff fuel s :
  scanner (S fuel) s = Done s [] <-> in_first_band n s.
Proof.
  unfold scan. rewrite (while_loop_unfold _ s (PyInt 0) [] (ok_zero s)).
  cbn [int_value]. rewrite Z.add_0_l.
  destruct (Z.ltb_spec n (py_len s)) as [Hc|Hc].
  - destruct (loop_body_spec s (PyInt 0) (ok_zero s) ltac:(cbn [int_value]; lia))
      as (mn & mx & Hmin & Hmax & [[E Hno]|(f & r & Hf & Ho & _ & _ & _ & E)]);
      cbn [int_value] in *; rewrite Z.add_0_l in *; rewrite E.
    + split; [|reflexivity]. intros _ mn' mx' j Hmin' Hmax' Hj.
      rewrite (is_min_of_unique _ _ _ _ _ Hmin' Hmin).
      rewrite (is_max_of_unique _ _ _ _ _ Hmax' Hmax). apply Hno. lia.
    + split.
      * intros H. unfold mask_from in H.
        destruct (add_pyint _ (Int64 f) _); [|discriminate].
        apply while_loop_prefix in H as (regions & H). discriminate.
      * intros H. rewrite (H mn mx f Hmin Hmax) in Ho by lia. discriminate.
  - split; [|reflexivity]. intros _ mn mx j _ _ Hj. lia.
Qed.

End ValidParameters.

Lemma within_int64 len r : len + r <= 2 ^ 63 -> len + r <= int64_bound len.
Proof. unfold int64_bound. lia. Qed.

Lemma decode_length data header_size samples :
  0 <= header_size -> decode data header_size = Some samples ->
  py_len samples <= py_len data.
Proof.
  intros Hh E.
  destruct (decode_total data header_size Hh) as (samples' & E' & _ & Hb & Hl & _).
  rewrite E in E'. injection E' as <-.
  unfold py_len in *.
  pose proof (Z.div_mod (Z.max 0 (Z.of_nat (length data) - header_size)) 2 ltac:(lia)).
  pose proof (Z.mod_pos_bound (Z.max 0 (Z.of_nat (length data) - header_size)) 2 ltac:(lia)).
  rewrite Hb in Hl. lia.
Qed.

Lemma process_file_total header_size trailer_size sample_rate data fuel :
  0 <= header_size -> 0 <= trailer_size -> 1 <= sample_rate ->
  py_len data + region_samples header_size trailer_size <= 2 ^ 63 ->
  (length data <= fuel)%nat ->
  exists samples s' regions,
    decode data header_size = Some samples /\
    process_file header_size trailer_size sample_rate fuel data = Done s' regions /\
    run header_size trailer_size sample_rate samples (PyInt 0) s' regions.
Proof.
  intros Hh Ht Hsr Hfit Hfuel.
  destruct (decode_total data header_size Hh) as (samples & E & _).
  pose proof (decode_length data header_size samples Hh E) as Hlen.
  assert (Hlen' : (length samples <= fuel)%nat) by (unfold py_len in Hlen; lia).
  destruct (scan_total header_size trailer_size sample_rate Hh Ht Hsr fuel samples
              ltac:(apply within_int64; lia) Hlen')
    as (s' & regions & Es & Hrun).
  exists samples, s', regions. unfold process_file. rewrite E. now repeat split.
Qed.

Lemma process_file_run header_size trailer_size sample_rate data fuel s' regions :
  0 <= header_size -> 0 <= trailer_size -> 1 <= sample_rate ->
  process_file header_size trailer_size sample_rate fuel data = Done s' regions ->
  exists samples,
    decode data header_size = Some samples /\
    run header_size trailer_size sample_rate samples (PyInt 0) s' regions.
Proof.
  intros Hh Ht Hsr E. unfold process_file in E.
  destruct (decode data header_size) as [samples|]; [|discriminate].
  exists samples. split; [reflexivity|]. now apply (scan_run _ _ _ Hh Ht Hsr fuel).
Qed.

(** A scan either returns or raises once it has fuel for one iteration per
    sample. *)
Lemma scan_returns_or_raises header_size trailer_size sample_rate fuel samples :
  0 <= header_size -> 0 <= trailer_size -> 1 <= sample_rate ->
  (length samples <= fuel)%nat ->
  (exists s' regions,
     scan header_size trailer_size sample_rate fuel samples = Done s' regions) \/
  (exists e, scan header_size trailer_size sample_rate fuel samples = Raised e).
Proof.
  intros Hh Ht Hsr Hfuel.
  pose proof (scan_stops _ _ _ Hh Ht Hsr fuel samples Hfuel) as H.
  destruct (scan header_size trailer_size sample_rate fuel samples) as [s' regions|e|].
  - left. now exists s', regions.
  - right. now exists e.
  - contradiction.
Qed.

(** ** Properties of the decoder and of the scanner *)

(** C6. For every byte buffer and header size [>= 0] the decoder raises no
    error; the body is the buffer without its first [header_size] bytes; the
    result has [floor(len(body)/2)] samples, sample [i] being the unsigned
    16-bit number whose low byte is byte [2i] and whose high byte is byte
    [2i+1] of the body (an odd last byte is dropped); a header size beyond
    the buffer gives the empty sequence. *)
Theorem decoder_postcondition (data : list byte) (header_size : Z) :
  0 <= header_size ->
  exists samples,
    decode data header_size = Some samples /\
    py_slice_from data header_size = skipn (Z.to_nat header_size) data /\
    py_len samples = py_len (py_slice_from data header_size) / 2 /\
    (forall i, 0 <= i < py_len samples ->
       get samples i
       = byte_val (nth (Z.to_nat (2 * i)) (py_slice_from data header_size) x00)
         + 256 * byte_val (nth (Z.to_nat (2 * i + 1)) (py_slice_from data header_size) x00)) /\
    (forall i, 0 <= get samples i < 65536) /\
    (py_len data <= header_size -> samples = []).
Proof.
  intros Hh.
  destruct (decode_total data header_size Hh) as (samples & E & Eb & _ & Hl & Hg & Hr & He).
  exists samples. repeat (split; [assumption|]). split; [|split; assumption].
  intros i Hi. rewrite Hg by exact Hi. rewrite Eb, !nth_skipn.
  repeat f_equal; lia.
Qed.

(** C2, as the program has it. After the scanner returns, every sample
    inside a returned region has quality 0 and amplitude equal to the
    region's replacement value; that value is [int(0.7 * min_signal) & 0x0FFF],
    with [0.7 * min_signal] the binary64 product, for the minimum amplitude
    of the baseline window of the iteration that found the region, the
    window starting at the end of the previous region (at 0 for the first
    one), which the final sequence still holds; it fits 12 bits and is the
    floor of [7/10 * min_signal] or, where the binary64 product falls just
    below an integer, one less. The scanner returns whenever
    [len(samples) + region_samples] is within the [int64] range. *)
Theorem mask_postcondition (header_size trailer_size sample_rate : Z)
        (samples : list Z) (fuel : nat) :
  0 <= header_size -> 0 <= trailer_size -> 1 <= sample_rate ->
  (py_len samples + region_samples header_size trailer_size <= 2 ^ 63 ->
   (length samples <= fuel)%nat ->
   exists s' regions,
     scan header_size trailer_size sample_rate fuel samples = Done s' regions) /\
  (forall s' regions,
     scan header_size trailer_size sample_rate fuel samples = Done s' regions ->
     forall pre iv post, regions = pre ++ iv :: post ->
       (exists min_signal,
          is_min_of min_signal s' (cursor_after 0 pre)
                    (cursor_after 0 pre + n_per_20s sample_rate) /\
          replacement_for min_signal = Some (replacement_value iv) /\
          10 * replacement_value iv <= 7 * min_signal < 10 * replacement_value iv + 20) /\
       0 <= replacement_value iv < 4096 /\
       forall j, in_interval iv j ->
                 quality (get s' j) = 0 /\ amplitude (get s' j) = replacement_value iv).
Proof.
  intros Hh Ht Hsr. split.
  - intros Hfit Hfuel.
    destruct (scan_total _ _ _ Hh Ht Hsr fuel samples (within_int64 _ _ Hfit) Hfuel)
      as (s' & regions & E & _).
    now exists s', regions.
  - intros s' regions E pre iv post Hsplit.
    pose proof (scan_run _ _ _ Hh Ht Hsr _ _ _ _ E) as Hrun.
    pose proof (ok_zero sample_rate samples) as Hok.
    assert (Hin : In iv regions) by (subst regions; apply in_or_app; right; now left).
    destruct (run_replacement _ _ _ Hh Ht Hsr _ _ _ _ Hrun Hok _ _ _ Hsplit)
      as (mn & Hmin & Hr).
    cbn [int_value] in Hmin.
    destruct (replacement_for_spec mn (is_min_of_range _ _ _ _ Hmin)) as (v & _ & Ev & Rv & Hv).
    rewrite Hr in Ev. injection Ev as Ev. subst v.
    split; [exists mn; split; [exact Hmin|]; split; [exact Hr|lia]|].
    assert (Hrange : 0 <= replacement_value iv < 4096) by exact Rv.
    split; [exact Hrange|].
    intros j Hj.
    destruct (run_mask _ _ _ Hh Ht Hsr _ _ _ _ Hrun Hok iv j Hin Hj) as [-> _].
    split; [apply quality_small|apply amplitude_small]; exact Hrange.
Qed.

(** C3. In the returned list, a region found before another ends at or
    before the start of the later one, their start indices increase strictly
    and no index lies in both; the scanner returns whenever
    [len(samples) + region_samples] is within the [int64] range. *)
Theorem intervals_ordered (header_size trailer_size sample_rate : Z)
        (samples : list Z) (fuel : nat) :
  0 <= header_size -> 0 <= trailer_size -> 1 <= sample_rate ->
  (py_len samples + region_samples header_size trailer_size <= 2 ^ 63 ->
   (length samples <= fuel)%nat ->
   exists s' regions,
     scan header_size trailer_size sample_rate fuel samples = Done s' regions) /\
  (forall s' regions,
     scan header_size trailer_size sample_rate fuel samples = Done s' regions ->
     forall l1 i l2 j l3, regions = l1 ++ i :: l2 ++ j :: l3 ->
       end_index i <= start_index j /\
       start_index i < start_index j /\
       forall k, ~ (in_interval i k /\ in_interval j k)).
Proof.
  intros Hh Ht Hsr. split.
  - intros Hfit Hfuel.
    destruct (scan_total _ _ _ Hh Ht Hsr fuel samples (within_int64 _ _ Hfit) Hfuel)
      as (s' & regions & E & _).
    now exists s', regions.
  - intros s' regions E l1 i l2 j l3 ->.
    pose proof (scan_run _ _ _ Hh Ht Hsr _ _ _ _ E) as Hrun.
    pose proof (run_chain _ _ _ Hh Ht Hsr _ _ _ _ Hrun (ok_zero _ _)) as Hch.
    destruct (chain_ordered _ Hsr _ _ _ _ _ _ _ Hch) as [H1 H2].
    pose proof (window_len_ge_20 _ Hsr) as Hn.
    unfold in_interval. split; [lia|]. split; [lia|]. intros k. lia.
Qed.

(** C10. Every returned region satisfies
    [sample_rate * 20 <= start_index <= end_index <= len(samples)]; the
    first baseline window keeps its samples and the sequence its length.
    The scanner returns whenever [len(samples) + region_samples] is within
    the [int64] range. *)
Theorem interval_bounds (header_size trailer_size sample_rate : Z)
        (samples : list Z) (fuel : nat) :
  0 <= header_size -> 0 <= trailer_size -> 1 <= sample_rate ->
  (py_len samples + region_samples header_size trailer_size <= 2 ^ 63 ->
   (length samples <= fuel)%nat ->
   exists s' regions,
     scan header_size trailer_size sample_rate fuel samples = Done s' regions) /\
  (forall s' regions,
     scan header_size trailer_size sample_rate fuel samples = Done s' regions ->
     py_len s' = py_len samples /\
     (forall iv, In iv regions ->
        sample_rate * 20 <= start_index iv /\ start_index iv <= end_index iv /\
        end_index iv <= py_len samples) /\
     (forall j, 0 <= j < sample_rate * 20 -> get s' j = get samples j)).
Proof.
  intros Hh Ht Hsr. split.
  - intros Hfit Hfuel.
    destruct (scan_total _ _ _ Hh Ht Hsr fuel samples (within_int64 _ _ Hfit) Hfuel)
      as (s' & regions & E & _).
    now exists s', regions.
  - intros s' regions E.
    pose proof (scan_run _ _ _ Hh Ht Hsr _ _ _ _ E) as Hrun.
    pose proof (ok_zero sample_rate samples) as Hok.
    split; [exact (run_len _ _ _ Hh Ht Hsr _ _ _ _ Hrun Hok)|]. split.
    + intros iv Hin.
      pose proof (run_chain _ _ _ Hh Ht Hsr _ _ _ _ Hrun Hok) as Hch.
      destruct (chain_In _ Hsr _ _ _ Hch iv Hin) as (H1 & H2 & H3).
      cbn [int_value] in H1. unfold n_per_20s in H1. lia.
    + intros j Hj. apply (run_prefix _ _ _ Hh Ht Hsr _ _ _ _ Hrun Hok).
      cbn [int_value]. unfold n_per_20s. lia.
Qed.

(** C9. After the program's loop returns, every sample whose index lies in
    no returned region keeps the raw 16-bit value the decoder produced,
    amplitude and quality alike; the loop returns whenever
    [len(data) + region_samples] is within the [int64] range. *)
Theorem frame_property (header_size trailer_size sample_rate : Z)
        (data : list byte) (fuel : nat) :
  0 <= header_size -> 0 <= trailer_size -> 1 <= sample_rate ->
  (py_len data + region_samples header_size trailer_size <= 2 ^ 63 ->
   (length data <= fuel)%nat ->
   exists s' regions,
     process_file header_size trailer_size sample_rate fuel data = Done s' regions) /\
  (forall s' regions,
     process_file header_size trailer_size sample_rate fuel data = Done s' regions ->
     exists decoded,
       decode data header_size = Some decoded /\
       py_len s' = py_len decoded /\
       forall j, 0 <= j < py_len decoded ->
                 (forall iv, In iv regions -> ~ in_interval iv j) ->
                 get s' j = get decoded j /\
                 amplitude (get s' j) = amplitude (get decoded j) /\
                 quality (get s' j) = quality (get decoded j)).
Proof.
  intros Hh Ht Hsr. split.
  - intros Hfit Hfuel.
    destruct (process_file_total _ _ _ data fuel Hh Ht Hsr Hfit Hfuel)
      as (decoded & s' & regions & _ & Ep & _).
    now exists s', regions.
  - intros s' regions Ep.
    destruct (process_file_run _ _ _ _ _ _ _ Hh Ht Hsr Ep) as (decoded & Ed & Hrun).
    pose proof (ok_zero sample_rate decoded) as Hok.
    exists decoded. split; [exact Ed|].
    split; [exact (run_len _ _ _ Hh Ht Hsr _ _ _ _ Hrun Hok)|].
    intros j Hj Hout.
    rewrite (run_frame _ _ _ Hh Ht Hsr _ _ _ _ Hrun Hok j Hj Hout).
    repeat split.
Qed.

(** C4, as the program has it. While [len(samples) + region_samples] is
    within the [int64] range, each iteration that masks moves the cursor
    forward by at least 1 (in fact by at least the window length) and not
    beyond [len(samples)], whose value the masking does not change, and with
    fuel for one iteration per sample the loop returns, the result not
    depending on the fuel. For all valid parameters the loop is over within
    one iteration per sample: it returns or it raises. *)
Theorem scanner_terminates (header_size trailer_size sample_rate : Z) :
  0 <= header_size -> 0 <= trailer_size -> 1 <= sample_rate ->
  (forall samples idx s1 iv idx1,
     cursor_ok sample_rate samples idx ->
     int_value idx + n_per_20s sample_rate < py_len samples ->
     py_len samples + region_samples header_size trailer_size <= 2 ^ 63 ->
     loop_body header_size trailer_size sample_rate samples idx = Next s1 iv idx1 ->
     int_value idx + 1 <= int_value idx1 /\
     int_value idx + n_per_20s sample_rate <= int_value idx1 /\
     int_value idx1 <= py_len samples /\ py_len s1 = py_len samples /\
     cursor_ok sample_rate s1 idx1) /\
  (forall samples fuel,
     py_len samples + region_samples header_size trailer_size <= 2 ^ 63 ->
     (length samples <= fuel)%nat ->
     exists s' regions,
       scan header_size trailer_size sample_rate fuel samples = Done s' regions /\
       forall fuel', (length samples <= fuel')%nat ->
         scan header_size trailer_size sample_rate fuel' samples = Done s' regions) /\
  (forall samples fuel,
     (length samples <= fuel)%nat ->
     (exists s' regions,
        scan header_size trailer_size sample_rate fuel samples = Done s' regions) \/
     (exists e, scan header_size trailer_size sample_rate fuel samples = Raised e)).
Proof.
  intros Hh Ht Hsr. pose proof (window_len_ge_20 _ Hsr) as Hn. split; [|split].
  - intros samples idx s1 iv idx1 Hok Hc Hfit B.
    destruct (loop_body_no_fail _ _ _ Hh Ht Hsr samples idx Hok Hc (within_int64 _ _ Hfit))
      as [B'|(s2 & iv2 & idx2 & B' & Hpos)]; rewrite B in B'; [discriminate|].
    apply Next_inj in B' as (_ & _ & <-).
    destruct (loop_body_next_shape _ _ _ Hh Ht Hsr _ _ _ _ _ Hok Hc B Hpos)
      as (Hs & He & Hi & _ & Hl & Hok1 & _).
    repeat split; try lia; apply Hok1.
  - intros samples fuel Hfit Hfuel.
    destruct (scan_total _ _ _ Hh Ht Hsr fuel samples (within_int64 _ _ Hfit) Hfuel)
      as (s' & regions & E & Hrun).
    exists s', regions. split; [exact E|].
    intros fuel' Hfuel'.
    destruct (scan_total _ _ _ Hh Ht Hsr fuel' samples (within_int64 _ _ Hfit) Hfuel')
      as (s2 & r2 & E2 & Hrun2).
    destruct (run_deterministic _ _ _ _ _ _ _ Hrun _ _ Hrun2) as [-> ->]. exact E2.
  - intros samples fuel Hfuel. now apply scan_returns_or_raises.
Qed.

(** C5. In an iteration with baseline window [[idx, idx + window_len)], whose
    least and greatest amplitudes are [min_signal] and [max_signal], a sample
    is flagged by the mask of the code (binary64 comparisons) if and only if
    its amplitude is strictly below [7/10 * min_signal] or strictly above
    [13/10 * max_signal] in exact arithmetic, so an amplitude equal to a
    threshold is not flagged. Either no sample at or after
    [idx + window_len] is flagged, and then the loop stops and returns the
    regions collected so far with the samples as they are; or there is a
    first flagged index at or after [idx + window_len], and the region
    starts there, unless [region_samples] does not fit an [int64], when the
    iteration raises [OverflowError]. The samples of the window are not
    searched. *)
Theorem outlier_detection (header_size trailer_size sample_rate : Z)
        (samples : list Z) (idx : intval) :
  1 <= sample_rate ->
  cursor_ok sample_rate samples idx ->
  int_value idx + n_per_20s sample_rate < py_len samples ->
  exists min_signal max_signal,
    is_min_of min_signal samples (int_value idx) (int_value idx + n_per_20s sample_rate) /\
    is_max_of max_signal samples (int_value idx) (int_value idx + n_per_20s sample_rate) /\
    (forall raw,
       is_outlier (low_thresh min_signal) (high_thresh max_signal) raw = true <->
       10 * amplitude raw < 7 * min_signal \/ 13 * max_signal < 10 * amplitude raw) /\
    ((loop_body header_size trailer_size sample_rate samples idx = Break /\
      (forall j, int_value idx + n_per_20s sample_rate <= j < py_len samples ->
         is_outlier (low_thresh min_signal) (high_thresh max_signal) (get samples j) = false) /\
      (forall fuel collected,
         while_loop header_size trailer_size sample_rate (S fuel) samples idx collected
         = Done samples collected))
     \/
     (exists first_outlier,
        int_value idx + n_per_20s sample_rate <= first_outlier < py_len samples /\
        is_outlier (low_thresh min_signal) (high_thresh max_signal)
                   (get samples first_outlier) = true /\
        (forall j, int_value idx + n_per_20s sample_rate <= j < first_outlier ->
           is_outlier (low_thresh min_signal) (high_thresh max_signal) (get samples j)
           = false) /\
        ((fits (int64_bound (py_len samples))
               (region_samples header_size trailer_size) = true /\
          exists s1 end_idx r idx1,
            loop_body header_size trailer_size sample_rate samples idx
            = Next s1 (mkInterval first_outlier end_idx r) idx1)
         \/
         (fits (int64_bound (py_len samples))
               (region_samples header_size trailer_size) = false /\
          loop_body header_size trailer_size sample_rate samples idx
          = Fail OverflowError)))).
Proof.
  intros Hsr Hok Hc.
  destruct (loop_body_spec header_size trailer_size _ Hsr samples idx Hok Hc)
    as (mn & mx & Hmin & Hmax & Hcases).
  pose proof (is_min_of_range _ _ _ _ Hmin) as Rmn.
  pose proof (is_max_of_range _ _ _ _ Hmax) as Rmx.
  exists mn, mx. split; [exact Hmin|]. split; [exact Hmax|]. split.
  - intros raw. rewrite is_outlier_exact by assumption. unfold outlier_exact.
    rewrite orb_true_iff, !Z.ltb_lt. reflexivity.
  - destruct Hcases as [[E Hno]|(f & r & Hf & Ho & Hb & Hr & _ & E)].
    + left. split; [exact E|]. split.
      * intros j Hj. rewrite is_outlier_exact by assumption. now apply Hno.
      * intros fuel collected.
        rewrite (while_loop_unfold _ _ _ Hsr _ samples idx collected Hok).
        destruct (Z.ltb_spec (int_value idx + n_per_20s sample_rate) (py_len samples)); [|lia].
        rewrite E. reflexivity.
    + right. exists f. split; [exact Hf|]. split; [|split].
      * rewrite is_outlier_exact by assumption. exact Ho.
      * intros j Hj. rewrite is_outlier_exact by assumption. now apply Hb.
      * rewrite E. unfold mask_from. cbn [add_pyint].
        destruct (fits _ _); [left|right]; split; try reflexivity.
        do 4 eexists. reflexivity.
Qed.


(** C1, as the program has it. A second run with the same parameters on the
    sequence left by a first run returns no region and leaves the sequence
    unchanged exactly when no sample at or after index [sample_rate * 20] of
    that sequence is outside the band of its first baseline window, a window
    the first run never writes; this is so whenever the first run returned
    no region. *)
Theorem rescan_characterisation (header_size trailer_size sample_rate : Z)
        (samples : list Z) (fuel : nat) (s1 : list Z) (regions1 : list MaskedInterval)
        (fuel2 : nat) :
  0 <= header_size -> 0 <= trailer_size -> 1 <= sample_rate ->
  scan header_size trailer_size sample_rate fuel samples = Done s1 regions1 ->
  (0 < fuel2)%nat ->
  (scan header_size trailer_size sample_rate fuel2 s1 = Done s1 [] <->
   in_first_band (n_per_20s sample_rate) s1) /\
  (regions1 = [] -> scan header_size trailer_size sample_rate fuel2 s1 = Done s1 []) /\
  (forall j, 0 <= j < n_per_20s sample_rate -> get s1 j = get samples j).
Proof.
  intros Hh Ht Hsr E Hfuel2.
  destruct fuel2 as [|fuel2]; [lia|].
  apply (scan_run _ _ _ Hh Ht Hsr) in E. split; [|split].
  - apply scan_quiet_iff; assumption.
  - intros ->. unfold scan.
    rewrite (while_loop_unfold _ _ _ Hsr _ s1 (PyInt 0) [] (ok_zero _ _)).
    inversion E; subst.
    + destruct (Z.ltb_spec (int_value (PyInt 0) + n_per_20s sample_rate) (py_len s1));
        [lia|reflexivity].
    + destruct (Z.ltb_spec (int_value (PyInt 0) + n_per_20s sample_rate) (py_len s1));
        [|reflexivity].
      match goal with H : loop_body _ _ _ _ _ = Break |- _ => rewrite H end. reflexivity.
  - intros j Hj. apply (run_prefix _ _ _ Hh Ht Hsr _ _ _ _ E (ok_zero _ _)).
    cbn [int_value]. lia.
Qed.

(** ** The single-spike scenario *)

Lemma py_len_app {A} (a b : list A) : py_len (a ++ b) = py_len a + py_len b.
Proof. unfold py_len. rewrite length_app. lia. Qed.

Lemma py_len_cons {A} (x : A) (l : list A) : py_len (x :: l) = 1 + py_len l.
Proof. unfold py_len. cbn [length]. lia. Qed.

Lemma get_app_l a b j : 0 <= j < py_len a -> get (a ++ b) j = get a j.
Proof. unfold get, py_len. intros H. apply app_nth1. lia. Qed.

Lemma get_app_r a b j : py_len a <= j -> get (a ++ b) j = get b (j - py_len a).
Proof.
  unfold get, py_len. intros H. rewrite app_nth2 by lia. f_equal. lia.
Qed.

Lemma get_cons_0 x l : get (x :: l) 0 = x.
Proof. reflexivity. Qed.

Lemma get_cons_pos x l j : 0 < j -> get (x :: l) j = get l (j - 1).
Proof.
  unfold get. intros H. replace (Z.to_nat j) with (S (Z.to_nat (j - 1))) by lia.
  reflexivity.
Qed.

Lemma Forall_get (P : Z -> Prop) l j : Forall P l -> 0 <= j < py_len l -> P (get l j).
Proof.
  unfold get, py_len. intros H Hj. rewrite Forall_forall in H. apply H, nth_In. lia.
Qed.

Lemma while_loop_enter header_size trailer_size sample_rate fuel s idx acc :
  1 <= sample_rate -> cursor_ok sample_rate s idx ->
  int_value idx + n_per_20s sample_rate < py_len s ->
  while_loop header_size trailer_size sample_rate (S fuel) s idx acc =
  match loop_body header_size trailer_size sample_rate s idx with
  | Break => Done s acc
  | Fail e => Raised e
  | Next s1 iv idx1 =>
      while_loop header_size trailer_size sample_rate fuel s1 idx1 (acc ++ [iv])
  end.
Proof.
  intros Hsr Hok H. rewrite (while_loop_unfold _ _ _ Hsr _ s idx acc Hok).
  destruct (Z.ltb_spec (int_value idx + n_per_20s sample_rate) (py_len s)); [reflexivity|lia].
Qed.

Section SpikeScenario.

Variables header_size trailer_size : Z.
Hypothesis header_nonneg : 0 <= header_size.
Hypothesis trailer_nonneg : 0 <= trailer_size.

Variables (base1 : list Z) (spike : Z) (arb base2 : list Z).
Hypothesis base1_len : py_len base1 = 3000.
Hypothesis base1_flat : Forall (fun raw => amplitude raw = 1000) base1.
Hypothesis spike_amp : amplitude spike = 4095.
Hypothesis arb_len : py_len arb = region_samples header_size trailer_size.
Hypothesis base2_len : py_len base2 = 3000.
Hypothesis base2_flat : Forall (fun raw => amplitude raw = 1000) base2.

#[local] Abbreviation R := (region_samples header_size trailer_size).
#[local] Abbreviation recording := (base1 ++ spike :: arb ++ base2).
#[local] Abbreviation masked := (np_slice_assign recording 3000 (3000 + R) 700).
#[local] Abbreviation body := (loop_body header_size trailer_size 150).

Lemma recording_len : py_len recording = 6001 + R.
Proof. rewrite py_len_app, py_len_cons, py_len_app. lia. Qed.

Lemma recording_base1 j : 0 <= j < 3000 -> amplitude (get recording j) = 1000.
Proof.
  intros Hj. rewrite get_app_l by lia.
  apply (Forall_get (fun raw => amplitude raw = 1000)); [exact base1_flat|lia].
Qed.

Lemma recording_spike : get recording 3000 = spike.
Proof.
  rewrite get_app_r by lia. rewrite base1_len.
  replace (3000 - 3000) with 0 by lia. apply get_cons_0.
Qed.

Lemma recording_base2 j : 3001 + R <= j < 6001 + R -> amplitude (get recording j) = 1000.
Proof.
  intros Hj. pose proof (py_len_nonneg arb) as Ha.
  rewrite get_app_r by lia. rewrite get_cons_pos by lia.
  rewrite get_app_r by lia.
  apply (Forall_get (fun raw => amplitude raw = 1000)); [exact base2_flat|lia].
Qed.

Lemma masked_len : py_len masked = 6001 + R.
Proof. rewrite np_slice_assign_len. apply recording_len. Qed.

Lemma masked_get j :
  0 <= j < 6001 + R ->
  get masked j = if (3000 <=? j) && (j <? 3000 + R) then 700 else get recording j.
Proof.
  intros Hj. pose proof (region_nonneg _ _ header_nonneg trailer_nonneg) as HR.
  apply np_slice_assign_get; rewrite recording_len; lia.
Qed.

(** First iteration: the baseline is flat at 1000 and the spike at index
    3000 is the first outlier. *)
Lemma spike_first_pass :
  body recording (PyInt 0)
  = Next masked (mkInterval 3000 (3000 + R) 700) (Int64 (3000 + R)).
Proof.
  pose proof (region_nonneg _ _ header_nonneg trailer_nonneg) as HR.
  assert (Hsr : 1 <= 150) by lia.
  destruct (int64_bound_ge (py_len recording)) as [B1 B2].
  pose proof (mask_exact header_size trailer_size header_nonneg trailer_nonneg
                recording 3000 700) as M.
  rewrite recording_len in M, B2.
  replace (Z.min (3000 + R) (6001 + R)) with (3000 + R) in M by lia.
  assert (Em : py_min (Int64 (3000 + R)) (6001 + R) = Int64 (3000 + R)).
  { unfold py_min. cbn [int_value].
    destruct (Z.ltb_spec (6001 + R) (3000 + R)); [lia|reflexivity]. }
  rewrite Em in M. rewrite <- M by lia. clear M Em.
  pose proof (loop_body_next_intro header_size trailer_size 150 Hsr recording (PyInt 0)
                1000 1000 3000 700 (ok_zero _ _)) as H.
  cbn [int_value] in H.
  change (n_per_20s 150) with 3000 in H. rewrite recording_len in H.
  apply H; clear H; try lia.
  - split; [exists 0; split; [lia|apply recording_base1; lia]|].
    intros j Hj. rewrite recording_base1 by lia. lia.
  - split; [exists 0; split; [lia|apply recording_base1; lia]|].
    intros j Hj. rewrite recording_base1 by lia. lia.
  - rewrite recording_spike, spike_amp. reflexivity.
  - vm_compute. reflexivity.
Qed.

(** Second iteration: the window starts after the masked region and the one
    sample left after it has amplitude 1000, which no band of a window
    containing a 1000 excludes. *)
Lemma spike_cursor_ok : cursor_ok 150 masked (Int64 (3000 + R)).
Proof.
  pose proof (region_nonneg _ _ header_nonneg trailer_nonneg) as HR.
  unfold cursor_ok. cbn [int_value]. change (n_per_20s 150) with 3000.
  rewrite masked_len. lia.
Qed.

Lemma spike_second_pass : body masked (Int64 (3000 + R)) = Break.
Proof.
  pose proof (region_nonneg _ _ header_nonneg trailer_nonneg) as HR.
  assert (Hsr : 1 <= 150) by lia.
  destruct (window_min_max masked (3000 + R) (3000 + R + 3000)) as (mn & mx & _ & _ & Hmin & Hmax);
    [lia|rewrite masked_len; lia|].
  apply (loop_body_break_intro header_size trailer_size 150 Hsr masked (Int64 (3000 + R))
           mn mx spike_cursor_ok);
    cbn [int_value]; change (n_per_20s 150) with 3000; rewrite ?masked_len;
    try assumption; try lia.
  intros j Hj.
  assert (E1 : amplitude (get masked (3001 + R)) = 1000).
  { rewrite masked_get by lia.
    destruct (Z.leb_spec 3000 (3001 + R)), (Z.ltb_spec (3001 + R) (3000 + R)); cbn [andb];
      try lia; apply recording_base2; lia. }
  assert (E2 : amplitude (get masked j) = 1000).
  { rewrite masked_get by lia.
    destruct (Z.leb_spec 3000 j), (Z.ltb_spec j (3000 + R)); cbn [andb];
      try lia; apply recording_base2; lia. }
  destruct Hmin as [_ Hmin]. destruct Hmax as [_ Hmax].
  specialize (Hmin (3001 + R) ltac:(lia)). specialize (Hmax (3001 + R) ltac:(lia)).
  rewrite E2. unfold outlier_exact. apply orb_false_iff. split; apply Z.ltb_ge; lia.
Qed.

Lemma spike_scan fuel :
  scan header_size trailer_size 150 (S (S fuel)) recording
  = Done masked [mkInterval 3000 (3000 + R) 700].
Proof.
  pose proof (region_nonneg _ _ header_nonneg trailer_nonneg) as HR.
  unfold scan.
  rewrite while_loop_enter
    by (try apply ok_zero; cbn [int_value]; change (n_per_20s 150) with 3000;
        rewrite ?recording_len; lia).
  rewrite spike_first_pass.
  rewrite while_loop_enter
    by (try apply spike_cursor_ok; cbn [int_value]; change (n_per_20s 150) with 3000;
        rewrite ?masked_len; lia).
  rewrite spike_second_pass. reflexivity.
Qed.

(** The rescan: with a region of at least one sample the spike is gone, and
    if the one arbitrary sample left unmasked, at index [3000 + region_len],
    is within the band [700 .. 1300] of the first window nothing is found. *)
Lemma spike_rescan fuel :
  1 <= R -> 700 <= amplitude (get recording (3000 + R)) <= 1300 ->
  scan header_size trailer_size 150 (S fuel) masked = Done masked [].
Proof.
  intros HR Hlast. assert (Hsr : 1 <= 150) by lia.
  unfold scan.
  rewrite while_loop_enter
    by (try apply ok_zero; cbn [int_value]; change (n_per_20s 150) with 3000;
        rewrite ?masked_len; lia).
  rewrite (loop_body_break_intro header_size trailer_size 150 Hsr masked (PyInt 0) 1000 1000);
    try apply ok_zero; cbn [int_value];
    change (n_per_20s 150) with 3000; rewrite ?masked_len; try lia; try reflexivity.
  - split; [exists 0; split; [lia|rewrite masked_get by lia; apply recording_base1; lia]|].
    intros j Hj. rewrite masked_get by lia.
    destruct (Z.leb_spec 3000 j); cbn [andb]; [lia|]. rewrite recording_base1 by lia. lia.
  - split; [exists 0; split; [lia|rewrite masked_get by lia; apply recording_base1; lia]|].
    intros j Hj. rewrite masked_get by lia.
    destruct (Z.leb_spec 3000 j); cbn [andb]; [lia|]. rewrite recording_base1 by lia. lia.
  - intros j Hj. rewrite masked_get by lia.
    destruct (Z.leb_spec 3000 j), (Z.ltb_spec j (3000 + R)); cbn [andb]; try lia.
    + reflexivity.
    + destruct (Z.eq_dec j (3000 + R)) as [->|Hne].
      * unfold outlier_exact. apply orb_false_iff. split; apply Z.ltb_ge; lia.
      * rewrite recording_base2 by lia. reflexivity.
Qed.

End SpikeScenario.

(** C8, as the program has it. At 150 Hz, on 3000 samples of amplitude 1000,
    a sample of amplitude 4095 (any quality bits) at index 3000, [region_len]
    samples of any value and 3000 more samples of amplitude 1000, the scanner
    returns exactly the region [{3000, 3000 + region_len, 700}]. A second run
    on the resulting sequence returns no region when [region_len >= 1] and
    the last of the arbitrary samples, at index [3000 + region_len] and not
    covered by the mask, has an amplitude from 700 to 1300. *)
Theorem single_spike_scenario (header_size trailer_size : Z)
        (base1 : list Z) (spike : Z) (arb base2 : list Z) (fuel : nat) :
  0 <= header_size -> 0 <= trailer_size ->
  py_len base1 = 3000 -> Forall (fun raw => amplitude raw = 1000) base1 ->
  amplitude spike = 4095 ->
  py_len arb = region_samples header_size trailer_size ->
  py_len base2 = 3000 -> Forall (fun raw => amplitude raw = 1000) base2 ->
  (2 <= fuel)%nat ->
  exists s1,
    scan header_size trailer_size 150 fuel (base1 ++ spike :: arb ++ base2)
    = Done s1 [mkInterval 3000 (3000 + region_samples header_size trailer_size) 700] /\
    (1 <= region_samples header_size trailer_size ->
     700 <= amplitude (get (base1 ++ spike :: arb ++ base2)
                           (3000 + region_samples header_size trailer_size)) <= 1300 ->
     scan header_size trailer_size 150 fuel s1 = Done s1 []).
Proof.
  intros Hh Ht Hl1 Hf1 Hsp Hla Hl2 Hf2 Hfuel.
  destruct fuel as [|[|fuel]]; try lia.
  eexists. split.
  - apply spike_scan; assumption.
  - intros HR Hlast. apply spike_rescan; assumption.
Qed.

(** ** Concrete runs *)

Example decode_flat_buffer : decode flat_buffer 0 = Some flat_samples.
Proof. vm_compute. reflexivity. Qed.

(** [float(sample_rate)] of line 82 raises for a rate of [2^1024], after the
    loop, which a recording of at most [20 * 2^1024] samples never enters. *)
Example float_of_huge_rate :
  py_float 150 = Some (S754_finite false 0x12c00000000000 (-45)) /\
  py_float (2 ^ 1024) = None /\
  scan 0 0 (2 ^ 1024) 30 flat_samples = Done flat_samples [] /\
  parsed_columns (2 ^ 1024) flat_samples = None.
Proof. vm_compute. repeat split. Qed.

(** C1 fails: the first run masks index 20 with [7 = int(0.7 * 10)]; the
    second run, from the same first window, now reaches index 21, which the
    first run never tested, masks it and so changes the sequence. *)
Lemma rescan_not_idempotent :
  process_file 0 2 1 30 flat_buffer = Done flat_masked_once [mkInterval 20 21 7] /\
  scan 0 2 1 30 flat_masked_once = Done flat_masked_twice [mkInterval 21 22 7] /\
  flat_masked_twice <> flat_masked_once.
Proof.
  split; [vm_compute; reflexivity|]. split; [vm_compute; reflexivity|].
  vm_compute. discriminate.
Qed.

(** C2 fails in the value: with a baseline minimum of 90 the binary64
    product [0.7 * 90] is just below 63 and the region receives 62, not
    [floor(7/10 * 90) = 63]. *)
Lemma replacement_below_floor :
  np_min (map amplitude (py_slice ninety_samples 0 20)) = Some 90 /\
  scan 0 2 1 30 ninety_samples = Done ninety_masked [mkInterval 20 21 62] /\
  (7 * 90) / 10 = 63.
Proof. vm_compute. repeat split. Qed.

(** C4 fails: with [header_size + trailer_size = 2^64 - 2] the sum
    [first_outlier + region_samples] wraps around, the cursor goes from 0 to
    a negative value and the next baseline window is empty, so that
    [np.min] raises [ValueError]; with [2^64] the region length does not fit
    an [int64] and the sum raises [OverflowError]. *)
Lemma scanner_raises_on_overflow :
  loop_body 0 18446744073709551614 1 flat_samples (PyInt 0)
  = Next flat_samples (mkInterval 20 (-9223372036854775789) 7)
         (Int64 (-9223372036854775789)) /\
  scan 0 18446744073709551614 1 30 flat_samples = Raised ValueError /\
  scan 0 18446744073709551616 1 30 flat_samples = Raised OverflowError.
Proof. vm_compute. repeat split. Qed.


(** C8 fails in its last part: with a region of one sample the arbitrary
    sample at index 3001 is left unmasked, and the second run flags it. *)
Lemma spike_rescan_masks_again :
  scan 2 0 150 10 spike_samples = Done spike_masked_once [mkInterval 3000 3001 700] /\
  scan 2 0 150 10 spike_masked_once = Done spike_masked_twice [mkInterval 3001 3002 700].
Proof. split; vm_compute; reflexivity. Qed.

Lemma flat_repeat (k : nat) : Forall (fun raw => amplitude raw = 1000) (repeat 1000 k).
Proof.
  apply Forall_forall. intros x Hx. apply repeat_spec in Hx. subst x. reflexivity.
Qed.

(** ** The theorems at concrete inputs *)

Lemma decoder_postcondition_witness :
  0 <= 1 /\
  exists samples,
    decode odd_buffer 1 = Some samples /\
    py_len samples = 2 /\ get samples 0 = 0x0302 /\ get samples 1 = 0x07ff.
Proof.
  split; [lia|].
  destruct (decoder_postcondition odd_buffer 1 ltac:(lia)) as (samples & E & _ & Hl & Hg & _).
  assert (H2 : py_len samples = 2) by (rewrite Hl; reflexivity).
  exists samples. split; [exact E|]. split; [exact H2|].
  split; rewrite Hg by lia; reflexivity.
Defined.

Lemma mask_postcondition_witness :
  (0 <= 0 /\ 0 <= 2 /\ 1 <= 1 /\
   scan 0 2 1 30 ninety_samples = Done ninety_masked [mkInterval 20 21 62] /\
   [mkInterval 20 21 62] = [] ++ mkInterval 20 21 62 :: [] /\
   in_interval (mkInterval 20 21 62) 20) /\
  (exists min_signal,
     is_min_of min_signal ninety_masked 0 (0 + n_per_20s 1) /\
     replacement_for min_signal = Some 62 /\
     10 * 62 <= 7 * min_signal < 10 * 62 + 20) /\
  0 <= 62 < 4096 /\
  quality (get ninety_masked 20) = 0 /\ amplitude (get ninety_masked 20) = 62.
Proof.
  assert (E : scan 0 2 1 30 ninety_samples = Done ninety_masked [mkInterval 20 21 62])
    by (vm_compute; reflexivity).
  assert (Hj : in_interval (mkInterval 20 21 62) 20) by (unfold in_interval; simpl; lia).
  split; [repeat split; try lia; try exact E; apply Hj|].
  destruct (mask_postcondition 0 2 1 ninety_samples 30 ltac:(lia) ltac:(lia) ltac:(lia))
    as [_ H].
  destruct (H _ _ E [] (mkInterval 20 21 62) [] eq_refl) as (Hm & Hr & Hg).
  split; [exact Hm|]. split; [exact Hr|]. exact (Hg 20 Hj).
Defined.

Lemma intervals_ordered_witness :
  (0 <= 0 /\ 0 <= 2 /\ 1 <= 1 /\
   scan 0 2 1 50 two_spikes
   = Done two_spikes_masked [mkInterval 20 21 7; mkInterval 41 42 7] /\
   [mkInterval 20 21 7; mkInterval 41 42 7]
   = [] ++ mkInterval 20 21 7 :: [] ++ mkInterval 41 42 7 :: []) /\
  end_index (mkInterval 20 21 7) <= start_index (mkInterval 41 42 7) /\
  start_index (mkInterval 20 21 7) < start_index (mkInterval 41 42 7) /\
  forall k, ~ (in_interval (mkInterval 20 21 7) k /\ in_interval (mkInterval 41 42 7) k).
Proof.
  assert (E : scan 0 2 1 50 two_spikes
              = Done two_spikes_masked [mkInterval 20 21 7; mkInterval 41 42 7])
    by (vm_compute; reflexivity).
  split; [repeat split; try lia; exact E|].
  destruct (intervals_ordered 0 2 1 two_spikes 50 ltac:(lia) ltac:(lia) ltac:(lia))
    as [_ H].
  exact (H _ _ E [] (mkInterval 20 21 7) [] (mkInterval 41 42 7) [] eq_refl).
Defined.

Lemma interval_bounds_witness :
  (0 <= 0 /\ 0 <= 2 /\ 1 <= 1 /\
   scan 0 2 1 50 two_spikes
   = Done two_spikes_masked [mkInterval 20 21 7; mkInterval 41 42 7] /\
   In (mkInterval 41 42 7) [mkInterval 20 21 7; mkInterval 41 42 7]) /\
  py_len two_spikes_masked = py_len two_spikes /\
  (1 * 20 <= 41 /\ 41 <= 42 /\ 42 <= py_len two_spikes) /\
  (forall j, 0 <= j < 1 * 20 -> get two_spikes_masked j = get two_spikes j).
Proof.
  assert (E : scan 0 2 1 50 two_spikes
              = Done two_spikes_masked [mkInterval 20 21 7; mkInterval 41 42 7])
    by (vm_compute; reflexivity).
  assert (Hin : In (mkInterval 41 42 7) [mkInterval 20 21 7; mkInterval 41 42 7])
    by (right; left; reflexivity).
  split; [repeat split; try lia; try exact E; exact Hin|].
  destruct (interval_bounds 0 2 1 two_spikes 50 ltac:(lia) ltac:(lia) ltac:(lia))
    as [_ H].
  destruct (H _ _ E) as (Hl & Hb & Hp).
  split; [exact Hl|]. split; [exact (Hb _ Hin)|exact Hp].
Defined.

Lemma frame_property_witness :
  (0 <= 0 /\ 0 <= 2 /\ 1 <= 1 /\
   process_file 0 2 1 44 flat_buffer = Done flat_masked_once [mkInterval 20 21 7]) /\
  exists decoded,
    decode flat_buffer 0 = Some decoded /\
    py_len flat_masked_once = py_len decoded /\
    forall j, 0 <= j < py_len decoded ->
              (forall iv, In iv [mkInterval 20 21 7] -> ~ in_interval iv j) ->
              get flat_masked_once j = get decoded j /\
              amplitude (get flat_masked_once j) = amplitude (get decoded j) /\
              quality (get flat_masked_once j) = quality (get decoded j).
Proof.
  assert (E : process_file 0 2 1 44 flat_buffer
              = Done flat_masked_once [mkInterval 20 21 7])
    by (vm_compute; reflexivity).
  split; [repeat split; try lia; exact E|].
  destruct (frame_property 0 2 1 flat_buffer 44 ltac:(lia) ltac:(lia) ltac:(lia))
    as [_ H].
  exact (H _ _ E).
Defined.

Lemma scanner_terminates_witness :
  (0 <= 0 /\ 0 <= 2 /\ 1 <= 1 /\
   cursor_ok 1 two_spikes (PyInt 0) /\
   int_value (PyInt 0) + n_per_20s 1 < py_len two_spikes /\
   py_len two_spikes + region_samples 0 2 <= 2 ^ 63 /\
   loop_body 0 2 1 two_spikes (PyInt 0)
   = Next (repeat 10 20 ++ [7] ++ repeat 10 20 ++ [100]) (mkInterval 20 21 7) (Int64 21) /\
   (length two_spikes <= 50)%nat) /\
  (int_value (PyInt 0) + 1 <= int_value (Int64 21) /\
   int_value (PyInt 0) + n_per_20s 1 <= int_value (Int64 21) /\
   int_value (Int64 21) <= py_len two_spikes /\
   py_len (repeat 10 20 ++ [7] ++ repeat 10 20 ++ [100]) = py_len two_spikes /\
   cursor_ok 1 (repeat 10 20 ++ [7] ++ repeat 10 20 ++ [100]) (Int64 21)) /\
  (exists s' regions,
     scan 0 2 1 50 two_spikes = Done s' regions /\
     forall fuel', (length two_spikes <= fuel')%nat ->
       scan 0 2 1 fuel' two_spikes = Done s' regions) /\
  ((exists s' regions, scan 0 2 1 50 two_spikes = Done s' regions) \/
   (exists e, scan 0 2 1 50 two_spikes = Raised e)).
Proof.
  assert (Hok : cursor_ok 1 two_spikes (PyInt 0)) by (split; [simpl; lia|exact I]).
  assert (Hc : int_value (PyInt 0) + n_per_20s 1 < py_len two_spikes) by reflexivity.
  assert (Hfit : py_len two_spikes + region_samples 0 2 <= 2 ^ 63)
    by (vm_compute; discriminate).
  assert (B : loop_body 0 2 1 two_spikes (PyInt 0)
              = Next (repeat 10 20 ++ [7] ++ repeat 10 20 ++ [100])
                     (mkInterval 20 21 7) (Int64 21))
    by (vm_compute; reflexivity).
  assert (Hfuel : (length two_spikes <= 50)%nat) by (simpl; lia).
  split.
  { split; [lia|]. split; [lia|]. split; [lia|]. split; [exact Hok|].
    split; [exact Hc|]. split; [exact Hfit|]. split; [exact B|exact Hfuel]. }
  destruct (scanner_terminates 0 2 1 ltac:(lia) ltac:(lia) ltac:(lia)) as (H1 & H2 & H3).
  split; [exact (H1 _ _ _ _ _ Hok Hc Hfit B)|].
  split; [exact (H2 two_spikes 50%nat Hfit Hfuel)|exact (H3 two_spikes 50%nat Hfuel)].
Defined.

Lemma outlier_detection_witness :
  (1 <= 1 /\ cursor_ok 1 flat_samples (PyInt 0) /\
   int_value (PyInt 0) + n_per_20s 1 < py_len flat_samples) /\
  exists min_signal max_signal,
    is_min_of min_signal flat_samples 0 (0 + n_per_20s 1) /\
    is_max_of max_signal flat_samples 0 (0 + n_per_20s 1) /\
    (forall raw,
       is_outlier (low_thresh min_signal) (high_thresh max_signal) raw = true <->
       10 * amplitude raw < 7 * min_signal \/ 13 * max_signal < 10 * amplitude raw) /\
    ((loop_body 0 2 1 flat_samples (PyInt 0) = Break /\
      (forall j, 0 + n_per_20s 1 <= j < py_len flat_samples ->
         is_outlier (low_thresh min_signal) (high_thresh max_signal) (get flat_samples j)
         = false) /\
      (forall fuel collected,
         while_loop 0 2 1 (S fuel) flat_samples (PyInt 0) collected
         = Done flat_samples collected))
     \/
     (exists first_outlier,
        0 + n_per_20s 1 <= first_outlier < py_len flat_samples /\
        is_outlier (low_thresh min_signal) (high_thresh max_signal)
                   (get flat_samples first_outlier) = true /\
        (forall j, 0 + n_per_20s 1 <= j < first_outlier ->
           is_outlier (low_thresh min_signal) (high_thresh max_signal) (get flat_samples j)
           = false) /\
        ((fits (int64_bound (py_len flat_samples)) (region_samples 0 2) = true /\
          exists s1 end_idx r idx1,
            loop_body 0 2 1 flat_samples (PyInt 0)
            = Next s1 (mkInterval first_outlier end_idx r) idx1)
         \/
         (fits (int64_bound (py_len flat_samples)) (region_samples 0 2) = false /\
          loop_body 0 2 1 flat_samples (PyInt 0) = Fail OverflowError)))).
Proof.
  assert (Hok : cursor_ok 1 flat_samples (PyInt 0)) by (split; [simpl; lia|exact I]).
  assert (Hc : int_value (PyInt 0) + n_per_20s 1 < py_len flat_samples) by reflexivity.
  split; [split; [lia|split; [exact Hok|exact Hc]]|].
  exact (outlier_detection 0 2 1 flat_samples (PyInt 0) ltac:(lia) Hok Hc).
Defined.


Lemma rescan_characterisation_witness :
  (0 <= 0 /\ 0 <= 2 /\ 1 <= 1 /\
   scan 0 2 1 30 flat_samples = Done flat_masked_once [mkInterval 20 21 7] /\
   (0 < 30)%nat) /\
  (scan 0 2 1 30 flat_masked_once = Done flat_masked_once [] <->
   in_first_band (n_per_20s 1) flat_masked_once) /\
  ([mkInterval 20 21 7] = [] -> scan 0 2 1 30 flat_masked_once = Done flat_masked_once []) /\
  (forall j, 0 <= j < n_per_20s 1 -> get flat_masked_once j = get flat_samples j).
Proof.
  split; [repeat split; lia || (vm_compute; reflexivity)|].
  apply (rescan_characterisation 0 2 1 flat_samples 30 flat_masked_once
           [mkInterval 20 21 7] 30); lia || (vm_compute; reflexivity).
Defined.

Lemma single_spike_scenario_witness :
  (0 <= 2 /\ 0 <= 0 /\
   py_len (repeat 1000 3000) = 3000 /\
   Forall (fun raw => amplitude raw = 1000) (repeat 1000 3000) /\
   amplitude 0xFFFF = 4095 /\
   py_len [1000] = region_samples 2 0 /\
   (2 <= 2)%nat) /\
  exists s1,
    scan 2 0 150 2 (repeat 1000 3000 ++ 0xFFFF :: [1000] ++ repeat 1000 3000)
    = Done s1 [mkInterval 3000 (3000 + region_samples 2 0) 700] /\
    (1 <= region_samples 2 0 ->
     700 <= amplitude (get (repeat 1000 3000 ++ 0xFFFF :: [1000] ++ repeat 1000 3000)
                           (3000 + region_samples 2 0)) <= 1300 ->
     scan 2 0 150 2 s1 = Done s1 []).
Proof.
  split.
  - repeat split; try lia; try reflexivity. apply flat_repeat.
  - apply (single_spike_scenario 2 0 (repeat 1000 3000) 0xFFFF [1000] (repeat 1000 3000) 2);
      try lia; try reflexivity; apply flat_repeat.
Defined.

(** ** The shape of the result *)

Lemma outlier_exact_outside mn mx a :
  outlier_exact mn mx a = true <-> outside_band mn mx a.
Proof.
  unfold outlier_exact, outside_band. rewrite orb_true_iff, !Z.ltb_lt. reflexivity.
Qed.

Lemma outlier_exact_inside mn mx a :
  outlier_exact mn mx a = false <-> ~ outside_band mn mx a.
Proof.
  rewrite <- outlier_exact_outside. destruct (outlier_exact mn mx a); split; congruence.
Qed.



Section RunShape.

Variables header_size trailer_size sample_rate : Z.
Hypothesis header_nonneg : 0 <= header_size.
Hypothesis trailer_nonneg : 0 <= trailer_size.
Hypothesis rate_pos : 1 <= sample_rate.

#[local] Abbreviation n := (n_per_20s sample_rate).
#[local] Abbreviation R := (region_samples header_size trailer_size).
#[local] Abbreviation body := (loop_body header_size trailer_size sample_rate).
#[local] Abbreviation runs := (run header_size trailer_size sample_rate).
#[local] Abbreviation ok := (cursor_ok sample_rate).

(** One masking step of a returning execution. *)
Lemma run_step s idx s1 iv idx1 s' regions :
  ok s idx -> int_value idx + n < py_len s ->
  body s idx = Next s1 iv idx1 -> runs s1 idx1 s' regions ->
  exists mn mx,
    is_min_of mn s (int_value idx) (int_value idx + n) /\
    is_max_of mx s (int_value idx) (int_value idx + n) /\
    int_value idx + n <= start_index iv < py_len s /\
    outlier_exact mn mx (amplitude (get s (start_index iv))) = true /\
    (forall j, int_value idx + n <= j < start_index iv ->
               outlier_exact mn mx (amplitude (get s j)) = false) /\
    end_index iv = Z.min (start_index iv + R) (py_len s) /\
    int_value idx1 = end_index iv /\
    s1 = np_slice_assign s (start_index iv) (end_index iv) (replacement_value iv) /\
    py_len s1 = py_len s /\
    ok s1 idx1 /\
    forall j, 0 <= j < py_len s ->
              get s1 j = if (start_index iv <=? j) && (j <? end_index iv)
                         then replacement_value iv else get s j.
Proof.
  intros Hok Hc B Hrun.
  pose proof (run_next_nonneg _ _ _ header_nonneg trailer_nonneg rate_pos
                _ _ _ _ _ _ _ Hok Hc B Hrun) as Hpos.
  destruct (loop_body_next_inv _ _ _ header_nonneg trailer_nonneg rate_pos
              _ _ _ _ _ Hok Hc B Hpos)
    as (mn & mx & Hmin & Hmax & Hs & Ho & Hb & _ & He & Hi & Hs1 & Hok1).
  destruct (loop_body_next_shape _ _ _ header_nonneg trailer_nonneg rate_pos
              _ _ _ _ _ Hok Hc B Hpos) as (_ & _ & _ & _ & Hl & _ & Hg).
  exists mn, mx. repeat (split; [assumption|]). exact Hg.
Qed.

Lemma run_region_end s idx s' regions :
  runs s idx s' regions -> ok s idx ->
  forall iv, In iv regions ->
             end_index iv = Z.min (start_index iv + R) (py_len s).
Proof.
  induction 1 as [| |s idx s1 iv0 idx1 s' regions Hc B Hrun IH]; intros Hok iv Hin;
    try contradiction.
  destruct (run_step _ _ _ _ _ _ _ Hok Hc B Hrun)
    as (_ & _ & _ & _ & _ & _ & _ & Hend & _ & _ & Hl & Hok1 & _).
  destruct Hin as [<-|Hin]; [exact Hend|].
  rewrite <- Hl. apply IH; [exact Hok1|exact Hin].
Qed.

Lemma chain_budget len idx regions :
  chain sample_rate len idx regions -> idx <= len ->
  idx + Z.of_nat (length regions) * n + masked_total regions <= len.
Proof.
  induction 1 as [|idx iv regions H1 H2 H3 H4 Hch IH]; intros Hle; cbn [length masked_total fold_right].
  - lia.
  - specialize (IH H4). fold (masked_total regions). lia.
Qed.

Lemma cursor_after_ge len pre : forall idx rest,
  chain sample_rate len idx (pre ++ rest) -> idx <= cursor_after idx pre.
Proof.
  pose proof (window_len_ge_20 _ rate_pos) as Hn.
  induction pre as [|p pre IH]; intros idx rest H.
  - cbn. lia.
  - cbn [app] in H. inversion H; subst.
    rewrite cursor_after_cons.
    match goal with Hc : chain _ _ (end_index p) _ |- _ => specialize (IH _ _ Hc) end.
    lia.
Qed.

Lemma cursor_after_le len idx regions :
  chain sample_rate len idx regions -> idx <= len -> cursor_after idx regions <= len.
Proof.
  induction 1 as [|idx iv regions H1 H2 H3 H4 Hch IH]; intros Hle.
  - exact Hle.
  - rewrite cursor_after_cons. apply IH. exact H4.
Qed.

(** Each region starts at the first sample after its baseline window whose
    amplitude, still the one the run started with, is outside the band. *)
Lemma run_band s idx s' regions :
  runs s idx s' regions -> ok s idx ->
  forall pre iv post, regions = pre ++ iv :: post ->
    exists mn mx,
      is_min_of mn s' (cursor_after (int_value idx) pre)
                (cursor_after (int_value idx) pre + n) /\
      is_max_of mx s' (cursor_after (int_value idx) pre)
                (cursor_after (int_value idx) pre + n) /\
      outside_band mn mx (amplitude (get s (start_index iv))) /\
      forall j, cursor_after (int_value idx) pre + n <= j < start_index iv ->
                get s' j = get s j /\ ~ outside_band mn mx (amplitude (get s' j)).
Proof.
  induction 1 as [| |s idx s1 iv0 idx1 s' regions Hc B Hrun IH]; intros Hok pre iv post E;
    try (destruct pre; discriminate).
  pose proof (window_len_ge_20 _ rate_pos) as Hn. pose proof Hok as [Hidx _].
  pose proof (region_nonneg _ _ header_nonneg trailer_nonneg) as HR.
  destruct (run_step _ _ _ _ _ _ _ Hok Hc B Hrun)
    as (mn & mx & Hmin & Hmax & Hs & Ho & Hb & He & Hi & _ & Hl & Hok1 & Hg).
  assert (Hwhole : runs s idx s' (iv0 :: regions)) by (eapply run_next; eassumption).
  destruct pre as [|p pre]; cbn [app] in E; injection E as -> ->.
  - exists mn, mx. change (cursor_after (int_value idx) []) with (int_value idx).
    assert (Hpre : forall j, int_value idx <= j < int_value idx + n -> get s' j = get s j).
    { intros j Hj.
      apply (run_prefix _ _ _ header_nonneg trailer_nonneg rate_pos _ _ _ _ Hwhole Hok); lia. }
    split; [apply (is_min_of_ext mn s); assumption|].
    split; [apply (is_max_of_ext mx s); assumption|].
    split; [apply outlier_exact_outside; exact Ho|].
    intros j Hj.
    assert (Ej : get s' j = get s j).
    { rewrite (run_prefix _ _ _ header_nonneg trailer_nonneg rate_pos _ _ _ _ Hrun Hok1)
        by lia.
      rewrite Hg by lia.
      destruct (Z.leb_spec (start_index iv) j); [lia|reflexivity]. }
    split; [exact Ej|]. rewrite Ej. apply outlier_exact_inside. apply Hb. lia.
  - pose proof (run_chain _ _ _ header_nonneg trailer_nonneg rate_pos _ _ _ _ Hrun Hok1)
      as Hch.
    rewrite Hi in Hch.
    pose proof (cursor_after_ge _ _ _ _ Hch) as Hcur.
    assert (Hiv : In iv (pre ++ iv :: post)) by (apply in_or_app; right; now left).
    destruct (chain_In _ rate_pos _ _ _ Hch iv Hiv) as (Hiv1 & Hiv2 & Hiv3).
    rewrite Hl in Hiv2.
    destruct (IH Hok1 pre iv post eq_refl) as (mn' & mx' & Hmin' & Hmax' & Ho' & Hb').
    rewrite Hi in Hmin', Hmax', Hb'.
    rewrite cursor_after_cons.
    exists mn', mx'. split; [exact Hmin'|]. split; [exact Hmax'|]. split.
    + rewrite Hg in Ho' by lia.
      destruct (Z.leb_spec (start_index p) (start_index iv)),
               (Z.ltb_spec (start_index iv) (end_index p)); cbn [andb] in Ho'; try lia;
        exact Ho'.
    + intros j Hj. destruct (Hb' j Hj) as [Ej Hin]. split; [|exact Hin].
      rewrite Ej. rewrite Hg by lia.
      destruct (Z.leb_spec (start_index p) j), (Z.ltb_spec j (end_index p)); cbn [andb];
        try lia; reflexivity.
Qed.

(** The loop entered again at the cursor it stopped with finds nothing. *)
Lemma run_final_quiet s idx s' regions :
  runs s idx s' regions -> ok s idx ->
  exists c, int_value c = cursor_after (int_value idx) regions /\
            ok s' c /\ runs s' c s' [].
Proof.
  induction 1 as [s idx Hc|s idx Hc B|s idx s1 iv0 idx1 s' regions Hc B Hrun IH];
    intros Hok.
  - exists idx. split; [reflexivity|]. split; [exact Hok|now apply run_exit].
  - exists idx. split; [reflexivity|]. split; [exact Hok|now apply run_break].
  - destruct (run_step _ _ _ _ _ _ _ Hok Hc B Hrun)
      as (_ & _ & _ & _ & _ & _ & _ & _ & Hi & _ & _ & Hok1 & _).
    destruct (IH Hok1) as (c & Ec & Hokc & Hq).
    exists c. rewrite cursor_after_cons, <- Hi. split; [exact Ec|]. split; [exact Hokc|exact Hq].
Qed.


End RunShape.

(** ** Further properties of the scanner *)

(** X1. In the list a returning scan gives, all regions but the last cover
    exactly [(header_size + trailer_size) // 2] samples; only the last one
    can be cut short, by the end of the sequence. *)
Theorem region_lengths (header_size trailer_size sample_rate : Z)
        (samples : list Z) (fuel : nat) (s' : list Z) (regions : list MaskedInterval) :
  0 <= header_size -> 0 <= trailer_size -> 1 <= sample_rate ->
  scan header_size trailer_size sample_rate fuel samples = Done s' regions ->
  forall pre iv post, regions = pre ++ iv :: post ->
    end_index iv
    = Z.min (start_index iv + region_samples header_size trailer_size)
            (py_len samples) /\
    (post <> [] ->
     end_index iv - start_index iv = region_samples header_size trailer_size).
Proof.
  intros Hh Ht Hsr E pre iv post ->.
  pose proof (scan_run _ _ _ Hh Ht Hsr _ _ _ _ E) as Hrun.
  pose proof (ok_zero sample_rate samples) as Hok.
  assert (Hin : In iv (pre ++ iv :: post)) by (apply in_or_app; right; now left).
  pose proof (run_region_end _ _ _ Hh Ht Hsr _ _ _ _ Hrun Hok iv Hin) as Hend.
  split; [exact Hend|].
  intros Hpost. destruct post as [|j post]; [congruence|].
  pose proof (run_chain _ _ _ Hh Ht Hsr _ _ _ _ Hrun Hok) as Hch.
  destruct (chain_ordered _ Hsr _ _ pre iv [] j post Hch) as [_ Hord].
  assert (Hj : In j (pre ++ iv :: j :: post))
    by (apply in_or_app; right; right; now left).
  destruct (chain_In _ Hsr _ _ _ Hch j Hj) as (_ & Hj2 & _).
  pose proof (window_len_ge_20 _ Hsr). lia.
Qed.

(** X2. Every region of a returning scan needs a fresh baseline window of
    [sample_rate * 20] samples before it: the windows and the masked samples
    together fit in the sequence, so there is at most one region per 20
    seconds of signal. *)
Theorem regions_budget (header_size trailer_size sample_rate : Z)
        (samples : list Z) (fuel : nat) (s' : list Z) (regions : list MaskedInterval) :
  0 <= header_size -> 0 <= trailer_size -> 1 <= sample_rate ->
  scan header_size trailer_size sample_rate fuel samples = Done s' regions ->
  Z.of_nat (length regions) * (sample_rate * 20) + masked_total regions
  <= py_len samples.
Proof.
  intros Hh Ht Hsr E.
  pose proof (scan_run _ _ _ Hh Ht Hsr _ _ _ _ E) as Hrun.
  pose proof (run_chain _ _ _ Hh Ht Hsr _ _ _ _ Hrun (ok_zero _ _)) as Hch.
  pose proof (chain_budget _ _ _ _ Hch (py_len_nonneg samples)) as H.
  cbn [int_value] in H. unfold n_per_20s in H. lia.
Qed.

(** X3. Each region of a returning scan starts at a sample whose original
    amplitude is strictly outside the band of the region's baseline window,
    and every sample between that window and the region is unchanged and
    inside the band. *)
Theorem region_starts_at_outlier (header_size trailer_size sample_rate : Z)
        (samples : list Z) (fuel : nat) (s' : list Z) (regions : list MaskedInterval) :
  0 <= header_size -> 0 <= trailer_size -> 1 <= sample_rate ->
  scan header_size trailer_size sample_rate fuel samples = Done s' regions ->
  forall pre iv post, regions = pre ++ iv :: post ->
    exists min_signal max_signal,
      is_min_of min_signal s' (cursor_after 0 pre)
                (cursor_after 0 pre + n_per_20s sample_rate) /\
      is_max_of max_signal s' (cursor_after 0 pre)
                (cursor_after 0 pre + n_per_20s sample_rate) /\
      outside_band min_signal max_signal (amplitude (get samples (start_index iv))) /\
      forall j, cursor_after 0 pre + n_per_20s sample_rate <= j < start_index iv ->
                get s' j = get samples j /\
                ~ outside_band min_signal max_signal (amplitude (get s' j)).
Proof.
  intros Hh Ht Hsr E pre iv post Hsplit.
  pose proof (scan_run _ _ _ Hh Ht Hsr _ _ _ _ E) as Hrun.
  exact (run_band _ _ _ Hh Ht Hsr _ _ _ _ Hrun (ok_zero _ _) _ _ _ Hsplit).
Qed.

(** X4. When the scanner returns, the loop entered again at the final
    cursor (the end of the last region, or 0) returns at once: either no
    full window plus one sample is left after the cursor, or every sample
    after the window at the cursor is inside its band. *)
Theorem final_cursor_quiet (header_size trailer_size sample_rate : Z)
        (samples : list Z) (fuel : nat) (s' : list Z) (regions : list MaskedInterval) :
  0 <= header_size -> 0 <= trailer_size -> 1 <= sample_rate ->
  scan header_size trailer_size sample_rate fuel samples = Done s' regions ->
  exists idx,
    int_value idx = cursor_after 0 regions /\
    0 <= cursor_after 0 regions <= py_len s' /\
    (forall fuel' collected,
       while_loop header_size trailer_size sample_rate (S fuel') s' idx collected
       = Done s' collected) /\
    (py_len s' <= cursor_after 0 regions + n_per_20s sample_rate \/
     exists min_signal max_signal,
       is_min_of min_signal s' (cursor_after 0 regions)
                 (cursor_after 0 regions + n_per_20s sample_rate) /\
       is_max_of max_signal s' (cursor_after 0 regions)
                 (cursor_after 0 regions + n_per_20s sample_rate) /\
       forall j, cursor_after 0 regions + n_per_20s sample_rate <= j < py_len s' ->
                 ~ outside_band min_signal max_signal (amplitude (get s' j))).
Proof.
  intros Hh Ht Hsr E.
  pose proof (scan_run _ _ _ Hh Ht Hsr _ _ _ _ E) as Hrun.
  pose proof (ok_zero sample_rate samples) as Hok.
  pose proof (run_chain _ _ _ Hh Ht Hsr _ _ _ _ Hrun Hok) as Hch.
  pose proof (run_len _ _ _ Hh Ht Hsr _ _ _ _ Hrun Hok) as Hlen.
  cbn [int_value] in Hch.
  assert (Hcur : 0 <= cursor_after 0 regions <= py_len s').
  { split.
    - apply (cursor_after_ge _ Hsr (py_len samples) regions 0 []).
      rewrite app_nil_r. exact Hch.
    - rewrite Hlen. apply (cursor_after_le _ _ _ _ Hch). apply py_len_nonneg. }
  destruct (run_final_quiet _ _ _ Hh Ht Hsr _ _ _ _ Hrun Hok) as (c & Ec & Hokc & Hq).
  cbn [int_value] in Ec.
  exists c. split; [exact Ec|]. split; [exact Hcur|].
  rewrite <- Ec.
  inversion Hq as [s0 i0 Hc0 | s0 i0 Hc0 HB | ]; subst.
  - split.
    + intros fuel' collected.
      rewrite (while_loop_unfold _ _ _ Hsr _ s' c collected Hokc).
      destruct (Z.ltb_spec (int_value c + n_per_20s sample_rate) (py_len s'));
        [lia|reflexivity].
    + left. lia.
  - split.
    + intros fuel' collected.
      rewrite (while_loop_unfold _ _ _ Hsr _ s' c collected Hokc).
      destruct (Z.ltb_spec (int_value c + n_per_20s sample_rate) (py_len s'));
        [|reflexivity].
      rewrite HB. reflexivity.
    + right.
      destruct (loop_body_break_inv _ _ _ Hsr _ _ Hokc Hc0 HB)
        as (mn & mx & Hmin & Hmax & Hno).
      exists mn, mx. split; [exact Hmin|]. split; [exact Hmax|].
      intros j Hj. apply outlier_exact_inside. now apply Hno.
Qed.


(** X6. The two ends of the amplitude range, in a returning scan. A region
    whose baseline window holds a sample of amplitude 0 is written with the
    value 0 and starts at a sample above [1.3 * max_signal], the low
    threshold being 0; a region whose baseline window holds an amplitude of
    3150 or more starts at a sample below [0.7 * min_signal], no 12-bit
    amplitude being above [1.3 * 3150]. *)
Theorem band_at_range_ends (header_size trailer_size sample_rate : Z)
        (samples : list Z) (fuel : nat) (s' : list Z) (regions : list MaskedInterval) :
  0 <= header_size -> 0 <= trailer_size -> 1 <= sample_rate ->
  scan header_size trailer_size sample_rate fuel samples = Done s' regions ->
  forall pre iv post, regions = pre ++ iv :: post ->
    ((exists j, cursor_after 0 pre <= j < cursor_after 0 pre + n_per_20s sample_rate /\
                amplitude (get s' j) = 0) ->
     replacement_value iv = 0 /\
     exists max_signal,
       is_max_of max_signal s' (cursor_after 0 pre)
                 (cursor_after 0 pre + n_per_20s sample_rate) /\
       13 * max_signal < 10 * amplitude (get samples (start_index iv))) /\
    ((exists j, cursor_after 0 pre <= j < cursor_after 0 pre + n_per_20s sample_rate /\
                3150 <= amplitude (get s' j)) ->
     exists min_signal,
       is_min_of min_signal s' (cursor_after 0 pre)
                 (cursor_after 0 pre + n_per_20s sample_rate) /\
       10 * amplitude (get samples (start_index iv)) < 7 * min_signal).
Proof.
  intros Hh Ht Hsr E pre iv post Hsplit.
  pose proof (scan_run _ _ _ Hh Ht Hsr _ _ _ _ E) as Hrun.
  pose proof (ok_zero sample_rate samples) as Hok.
  destruct (run_band _ _ _ Hh Ht Hsr _ _ _ _ Hrun Hok _ _ _ Hsplit)
    as (mn & mx & Hmin & Hmax & Hout & _).
  destruct (run_replacement _ _ _ Hh Ht Hsr _ _ _ _ Hrun Hok _ _ _ Hsplit)
    as (mn' & Hmin' & Hr).
  cbn [int_value] in *.
  rewrite (is_min_of_unique _ _ _ _ _ Hmin' Hmin) in Hr.
  pose proof (is_min_of_range _ _ _ _ Hmin) as Rmn.
  pose proof (amplitude_range (get samples (start_index iv))) as Ra.
  unfold outside_band in Hout. split.
  - intros (j & Hj & Ej). destruct Hmin as [_ Hle]. specialize (Hle j Hj).
    assert (mn = 0) by lia. subst mn.
    split; [|exists mx; split; [exact Hmax|lia]].
    change (replacement_for 0) with (Some 0) in Hr. congruence.
  - intros (j & Hj & Ej). destruct Hmax as [_ Hge]. specialize (Hge j Hj).
    exists mn. split; [exact Hmin|]. lia.
Qed.

(** ** Further properties of the decoder and of the whole run *)

Lemma py_slice_from_zero {A} (l : list A) : py_slice_from l 0 = l.
Proof.
  unfold py_slice_from, py_norm. cbn [Z.ltb Z.compare].
  pose proof (py_len_nonneg l). rewrite Z.min_l by lia. reflexivity.
Qed.

Lemma py_slice_from_header {A} (hdr body : list A) :
  py_slice_from (hdr ++ body) (py_len hdr) = body.
Proof.
  unfold py_slice_from. rewrite py_norm_id.
  - unfold py_len. rewrite Nat2Z.id, skipn_app, skipn_all, Nat.sub_diag. reflexivity.
  - rewrite py_len_app. pose proof (py_len_nonneg hdr). pose proof (py_len_nonneg body). lia.
Qed.

Lemma even_py_len {A} (l : list A) :
  Nat.even (length l) = true -> py_len l mod 2 = 0.
Proof.
  intros H. apply Nat.even_spec in H as [k Hk]. unfold py_len. rewrite Hk.
  rewrite Nat2Z.inj_mul. change (Z.of_nat 2) with 2.
  rewrite Z.mul_comm. apply Z_mod_mult.
Qed.

Lemma byte_val_inj b1 b2 : byte_val b1 = byte_val b2 -> b1 = b2.
Proof.
  unfold byte_val. intros H. apply N2Z.inj in H.
  pose proof (Byte.of_to_N b1) as H1. rewrite H in H1.
  rewrite Byte.of_to_N in H1. congruence.
Qed.

Lemma frombuffer_inj s : forall d1 d2,
  frombuffer_u2le d1 = Some s -> frombuffer_u2le d2 = Some s -> d1 = d2.
Proof.
  induction s as [|x s IH]; intros d1 d2 H1 H2.
  - destruct d1 as [|a1 [|b1 r1]], d2 as [|a2 [|b2 r2]]; cbn [frombuffer_u2le] in H1, H2;
      try discriminate; try reflexivity;
      repeat match goal with
             | H : match frombuffer_u2le ?r with _ => _ end = _ |- _ =>
                 destruct (frombuffer_u2le r); discriminate
             end.
  - destruct d1 as [|a1 [|b1 r1]]; cbn [frombuffer_u2le] in H1; try discriminate.
    destruct d2 as [|a2 [|b2 r2]]; cbn [frombuffer_u2le] in H2; try discriminate.
    destruct (frombuffer_u2le r1) as [l1|] eqn:E1; [|discriminate].
    destruct (frombuffer_u2le r2) as [l2|] eqn:E2; [|discriminate].
    assert (Hx1 : byte_val a1 + 256 * byte_val b1 = x) by congruence.
    assert (Hx2 : byte_val a2 + 256 * byte_val b2 = x) by congruence.
    assert (Hl1 : l1 = s) by congruence. assert (Hl2 : l2 = s) by congruence.
    subst l1 l2. clear H1 H2.
    pose proof (byte_val_range a1). pose proof (byte_val_range b1).
    pose proof (byte_val_range a2). pose proof (byte_val_range b2).
    assert (byte_val a1 = byte_val a2) by lia.
    assert (byte_val b1 = byte_val b2) by lia.
    f_equal; [now apply byte_val_inj|]. f_equal; [now apply byte_val_inj|].
    now apply IH.
Qed.

(** The bytes the decoder reads: the body without an odd last byte. *)
Lemma decode_reads data h :
  0 <= h ->
  decode data h
  = frombuffer_u2le (firstn (2 * (length (skipn (Z.to_nat h) data) / 2))
                            (skipn (Z.to_nat h) data)).
Proof.
  intros Hh. destruct (decode_total data h Hh) as (_ & _ & Eb & _).
  unfold decode. rewrite Eb. set (body := skipn (Z.to_nat h) data).
  pose proof (Nat.div_mod_eq (length body) 2) as Hdm.
  pose proof (Nat.mod_upper_bound (length body) 2 ltac:(lia)) as Hm.
  destruct (Z.eqb_spec (py_len body mod 2) 0) as [E0|E1]; cbn [negb].
  - assert (length body mod 2 = 0)%nat.
    { unfold py_len in E0. apply Nat2Z.inj.
      rewrite Nat2Z.inj_mod. exact E0. }
    rewrite firstn_all2 by lia. reflexivity.
  - assert (length body mod 2 = 1)%nat.
    { destruct (Nat.eq_dec (length body mod 2) 0) as [C|C]; [|lia].
      exfalso. apply E1. unfold py_len.
      change 2 with (Z.of_nat 2). rewrite <- Nat2Z.inj_mod, C. reflexivity. }
    unfold py_slice_to, py_norm. cbn [Z.ltb Z.compare].
    f_equal. f_equal. unfold py_len. lia.
Qed.

(** X7. The content of the header never reaches the samples, and neither
    does an odd last byte: a file decodes as its body alone does. *)
Theorem header_and_odd_byte_ignored (hdr body : list byte) (b : byte) :
  decode (hdr ++ body) (py_len hdr) = decode body 0 /\
  (Nat.even (length body) = true ->
   decode (hdr ++ body ++ [b]) (py_len hdr) = decode body 0).
Proof.
  split.
  - unfold decode. rewrite py_slice_from_header, py_slice_from_zero. reflexivity.
  - intros Heven. unfold decode.
    rewrite py_slice_from_header, py_slice_from_zero.
    pose proof (even_py_len body Heven) as E0.
    assert (E1 : py_len (body ++ [b]) mod 2 = 1).
    { rewrite py_len_app. change (py_len [b]) with 1.
      rewrite Z.add_mod, E0 by lia. reflexivity. }
    rewrite E0, E1. cbn [Z.eqb negb].
    f_equal. unfold py_slice_to, py_norm. cbn [Z.ltb Z.compare].
    rewrite py_len_app. change (py_len [b]) with 1.
    pose proof (py_len_nonneg body).
    replace (Z.to_nat (Z.max 0 (-1 + (py_len body + 1)))) with (length body)
      by (unfold py_len in *; lia).
    rewrite firstn_app, firstn_all, Nat.sub_diag. cbn [firstn]. apply app_nil_r.
Qed.

(** X8. A negative header size is not rejected: [-k] makes the decoder
    read the last [k] bytes of the file only (the whole file when [k]
    exceeds its size). *)
Theorem negative_header_reads_tail (data : list byte) (k : Z) :
  0 < k ->
  decode data (- k) = decode (skipn (length data - Z.to_nat k) data) 0.
Proof.
  intros Hk. unfold decode. rewrite py_slice_from_zero.
  assert (E : py_slice_from data (- k) = skipn (length data - Z.to_nat k) data).
  { unfold py_slice_from, py_norm. destruct (Z.ltb_spec (- k) 0); [|lia].
    f_equal. unfold py_len. lia. }
  rewrite E. reflexivity.
Qed.

(** X9. Decoding loses nothing but the header and an odd last byte: two
    files that decode to the same samples have the same body bytes up to
    that byte. *)
Theorem decode_lossless (d1 d2 : list byte) (h1 h2 : Z) :
  0 <= h1 -> 0 <= h2 ->
  decode d1 h1 = decode d2 h2 ->
  firstn (2 * (length (skipn (Z.to_nat h1) d1) / 2)) (skipn (Z.to_nat h1) d1)
  = firstn (2 * (length (skipn (Z.to_nat h2) d2) / 2)) (skipn (Z.to_nat h2) d2).
Proof.
  intros H1 H2 E.
  destruct (decode_total d1 h1 H1) as (s & Es & _).
  rewrite Es in E. symmetry in E.
  rewrite decode_reads in Es, E by assumption.
  exact (frombuffer_inj s _ _ Es E).
Qed.

Lemma uint16_fields raw :
  0 <= raw < 65536 ->
  raw = Z.land raw 0x0FFF + 4096 * Z.land (Z.shiftr raw 12) 0x000F /\
  0 <= Z.land raw 0x0FFF < 4096 /\
  0 <= Z.land (Z.shiftr raw 12) 0x000F < 16.
Proof.
  intros Hr.
  change 0x0FFF with (Z.ones 12). change 0x000F with (Z.ones 4).
  rewrite !Z.land_ones, Z.shiftr_div_pow2 by lia.
  change (2 ^ 12) with 4096. change (2 ^ 4) with 16.
  pose proof (Z.div_mod raw 4096 ltac:(lia)) as Hdm.
  pose proof (Z.mod_pos_bound raw 4096 ltac:(lia)) as Hm.
  assert (0 <= raw / 4096 < 16)
    by (split; [apply Z.div_pos; lia|apply Z.div_lt_upper_bound; lia]).
  rewrite (Z.mod_small (raw / 4096) 16) by lia. lia.
Qed.

Lemma assign_from_Forall (P : Z -> Prop) l : forall i lo hi v,
  Forall P l -> P v -> Forall P (assign_from l i lo hi v).
Proof.
  induction l as [|x r IH]; intros i lo hi v Hl Hv; cbn [assign_from]; [constructor|].
  inversion Hl; subst. constructor; [|now apply IH].
  destruct ((lo <=? i) && (i <? hi)); assumption.
Qed.

(** The loop keeps every sample a 16-bit value. *)
Lemma run_uint16 header_size trailer_size sample_rate s idx s' regions :
  0 <= header_size -> 0 <= trailer_size -> 1 <= sample_rate ->
  run header_size trailer_size sample_rate s idx s' regions ->
  cursor_ok sample_rate s idx ->
  Forall (fun raw => 0 <= raw < 65536) s -> Forall (fun raw => 0 <= raw < 65536) s'.
Proof.
  intros Hh Ht Hsr.
  induction 1 as [| |s idx s1 iv idx1 s' regions Hc B Hrun IH]; intros Hok Hs;
    try assumption.
  pose proof (run_next_nonneg _ _ _ Hh Ht Hsr _ _ _ _ _ _ _ Hok Hc B Hrun) as Hpos.
  destruct (loop_body_next_shape _ _ _ Hh Ht Hsr _ _ _ _ _ Hok Hc B Hpos)
    as (_ & _ & _ & Hr & _ & Hok1 & _).
  destruct (loop_body_next_inv _ _ _ Hh Ht Hsr _ _ _ _ _ Hok Hc B Hpos)
    as (_ & _ & _ & _ & _ & _ & _ & _ & _ & _ & Hs1 & _).
  apply IH; [exact Hok1|]. rewrite Hs1.
  unfold np_slice_assign. apply assign_from_Forall; [exact Hs|lia].
Qed.

(** X10. Once the loop has returned and [float(sample_rate)] of line 82 has
    been computed, the amplitude and flag columns of the parsed CSV keep the
    whole sample array: there is one entry per sample, the amplitude is
    below 4096, the flag below 16, and [amplitude + 4096 * flag] is the raw
    sample. *)
Theorem csv_columns_round_trip (header_size trailer_size sample_rate : Z)
        (data : list byte) (fuel : nat) (s' : list Z) (regions : list MaskedInterval)
        (amplitudes flags : list Z) :
  0 <= header_size -> 0 <= trailer_size -> 1 <= sample_rate ->
  process_file header_size trailer_size sample_rate fuel data = Done s' regions ->
  parsed_columns sample_rate s' = Some (amplitudes, flags) ->
  length amplitudes = length s' /\
  length flags = length s' /\
  forall i, (i < length s')%nat ->
    nth i s' 0 = nth i amplitudes 0 + 4096 * nth i flags 0 /\
    0 <= nth i amplitudes 0 < 4096 /\
    0 <= nth i flags 0 < 16.
Proof.
  intros Hh Ht Hsr Ep Ecols.
  destruct (process_file_run _ _ _ _ _ _ _ Hh Ht Hsr Ep) as (decoded & Ed & Hrun).
  unfold parsed_columns in Ecols.
  destruct (py_float sample_rate); [|discriminate].
  injection Ecols as <- <-.
  unfold amplitudes_column, flags_column. rewrite !length_map.
  split; [reflexivity|]. split; [reflexivity|].
  assert (Hdec : Forall (fun raw => 0 <= raw < 65536) decoded).
  { destruct (decode_total data header_size Hh) as (samples & E & _ & _ & _ & _ & Hrange & _).
    rewrite E in Ed. injection Ed as <-.
    apply Forall_forall. intros x Hx. apply (In_nth _ _ 0) in Hx as (k & _ & <-).
    specialize (Hrange (Z.of_nat k)). rewrite get_nth in Hrange. exact Hrange. }
  pose proof (run_uint16 _ _ _ _ _ _ _ Hh Ht Hsr Hrun (ok_zero _ _) Hdec) as Hall.
  intros i Hi.
  rewrite Forall_forall in Hall. specialize (Hall (nth i s' 0) (nth_In _ _ Hi)).
  assert (Ea : nth i (map (fun raw => Z.land raw 0x0FFF) s') 0
               = Z.land (nth i s' 0) 0x0FFF)
    by exact (map_nth (fun raw => Z.land raw 0x0FFF) s' 0 i).
  assert (Ef : nth i (map (fun raw => Z.land (Z.shiftr raw 12) 0x000F) s') 0
               = Z.land (Z.shiftr (nth i s' 0) 12) 0x000F)
    by exact (map_nth (fun raw => Z.land (Z.shiftr raw 12) 0x000F) s' 0 i).
  rewrite Ea, Ef. apply uint16_fields. exact Hall.
Qed.

(** X11. A recording of at most 20 seconds is never masked: when the body
    has at most [40 * sample_rate + 1] bytes the program returns the decoded
    samples as they are and no region, whatever the trailer size. *)
Theorem short_recording_untouched (header_size trailer_size sample_rate : Z)
        (data : list byte) (fuel : nat) :
  0 <= header_size -> 1 <= sample_rate ->
  py_len data - header_size <= 40 * sample_rate + 1 ->
  exists decoded,
    decode data header_size = Some decoded /\
    process_file header_size trailer_size sample_rate fuel data = Done decoded [].
Proof.
  intros Hh Hsr Hshort.
  destruct (decode_total data header_size Hh) as (decoded & E & _ & Hb & Hl & _).
  exists decoded. split; [exact E|].
  unfold process_file. rewrite E. unfold scan.
  assert (Hlen : py_len decoded <= sample_rate * 20).
  { rewrite Hl, Hb.
    pose proof (Z.div_mod (Z.max 0 (py_len data - header_size)) 2 ltac:(lia)).
    pose proof (Z.mod_pos_bound (Z.max 0 (py_len data - header_size)) 2 ltac:(lia)).
    lia. }
  destruct fuel; cbn [while_loop add_pyint int_value]; unfold n_per_20s;
    destruct (Z.ltb_spec (0 + sample_rate * 20) (py_len decoded)); try lia; reflexivity.
Qed.

(** ** The quality bits play no part in the detection *)

Lemma amplitude_idem raw : amplitude (amplitude raw) = amplitude raw.
Proof. apply amplitude_small, amplitude_range. Qed.

Lemma is_outlier_amplitude low high raw :
  is_outlier low high raw = is_outlier low high (amplitude raw).
Proof. unfold is_outlier. now rewrite amplitude_idem. Qed.

Lemma where_from_map (p : Z -> bool) (f : Z -> Z) l :
  (forall x, p x = p (f x)) -> forall i, where_from p l i = where_from p (map f l) i.
Proof.
  intros Hp. induction l as [|x r IH]; intros i; cbn [where_from map]; [reflexivity|].
  rewrite <- Hp, !IH. reflexivity.
Qed.

Lemma py_len_map (f : Z -> Z) l : py_len (map f l) = py_len l.
Proof. unfold py_len. now rewrite length_map. Qed.

Lemma py_slice_map (f : Z -> Z) l a b : map f (py_slice l a b) = py_slice (map f l) a b.
Proof. unfold py_slice. now rewrite py_len_map, skipn_map, firstn_map. Qed.

Lemma py_slice_from_map (f : Z -> Z) l a :
  map f (py_slice_from l a) = py_slice_from (map f l) a.
Proof. unfold py_slice_from. now rewrite py_len_map, skipn_map. Qed.

Lemma assign_from_map (f : Z -> Z) l : forall i lo hi v,
  map f (assign_from l i lo hi v) = assign_from (map f l) i lo hi (f v).
Proof.
  induction l as [|x r IH]; intros i lo hi v; cbn [assign_from map]; [reflexivity|].
  rewrite IH. destruct ((lo <=? i) && (i <? hi)); reflexivity.
Qed.

Lemma np_slice_assign_map (f : Z -> Z) l a b v :
  map f (np_slice_assign l a b v) = np_slice_assign (map f l) a b (f v).
Proof. unfold np_slice_assign. now rewrite assign_from_map, py_len_map. Qed.

(** One pass on two sequences with the same amplitudes. *)
Lemma loop_body_quality header_size trailer_size sample_rate s1 s2 idx :
  map amplitude s1 = map amplitude s2 ->
  match loop_body header_size trailer_size sample_rate s1 idx,
        loop_body header_size trailer_size sample_rate s2 idx with
  | Break, Break => True
  | Fail e1, Fail e2 => e1 = e2
  | Next a iv i, Next b jv j => map amplitude a = map amplitude b /\ iv = jv /\ i = j
  | _, _ => False
  end.
Proof.
  intros E.
  assert (El : py_len s1 = py_len s2)
    by (rewrite <- (py_len_map amplitude s1), E; apply py_len_map).
  unfold loop_body. rewrite El.
  destruct (add_pyint _ idx _) as [stop|]; [|reflexivity].
  rewrite !py_slice_map, E.
  destruct (np_min _) as [mn|]; [|reflexivity].
  destruct (np_max _) as [mx|]; [|reflexivity].
  unfold np_where.
  rewrite (where_from_map _ amplitude (py_slice_from s1 _)
             (is_outlier_amplitude (low_thresh mn) (high_thresh mx))).
  rewrite (where_from_map _ amplitude (py_slice_from s2 _)
             (is_outlier_amplitude (low_thresh mn) (high_thresh mx))).
  rewrite !py_slice_from_map, E.
  destruct (where_from _ _ _) as [|o rest]; [exact I|].
  destruct (add_int64 _ stop o) as [first_outlier|]; [|reflexivity].
  destruct (add_pyint _ first_outlier _) as [region_end|]; [|reflexivity].
  destruct (F64.to_int (low_thresh mn)) as [v|]; [|reflexivity].
  split; [|split; reflexivity].
  rewrite !np_slice_assign_map, E. reflexivity.
Qed.

Lemma while_loop_quality header_size trailer_size sample_rate fuel :
  forall s1 s2 idx acc,
    map amplitude s1 = map amplitude s2 ->
    same_up_to_quality
      (while_loop header_size trailer_size sample_rate fuel s1 idx acc)
      (while_loop header_size trailer_size sample_rate fuel s2 idx acc).
Proof.
  induction fuel as [|fuel IH]; intros s1 s2 idx acc E;
    assert (El : py_len s1 = py_len s2)
      by (rewrite <- (py_len_map amplitude s1), E; apply py_len_map);
    cbn [while_loop]; rewrite El;
    (destruct (add_pyint _ idx _) as [stop|]; [|reflexivity]);
    destruct (int_value stop <? py_len s2); cbn [same_up_to_quality];
    try (split; [exact E|reflexivity]); try exact I.
  pose proof (loop_body_quality header_size trailer_size sample_rate s1 s2 idx E) as H.
  destruct (loop_body _ _ _ s1 idx) as [|e1|a iv i],
           (loop_body _ _ _ s2 idx) as [|e2|b jv j]; try contradiction.
  - split; [exact E|reflexivity].
  - exact H.
  - destruct H as (Hab & -> & ->). now apply IH.
Qed.

(** X12. Detection looks at the lower 12 bits only: two sample sequences
    with the same amplitudes give the same regions (or the same error), and
    results with the same amplitudes, whatever their quality bits and
    whatever the parameters. *)
Theorem quality_bits_ignored (header_size trailer_size sample_rate : Z)
        (fuel : nat) (s1 s2 : list Z) :
  map amplitude s1 = map amplitude s2 ->
  same_up_to_quality (scan header_size trailer_size sample_rate fuel s1)
                     (scan header_size trailer_size sample_rate fuel s2).
Proof. intros E. unfold scan. now apply while_loop_quality. Qed.

(** X13. A sample rate of zero is not rejected either: on any non-empty
    sample sequence the first baseline window is empty and NumPy's
    [ValueError] for the minimum of an empty array ends the program; the
    same happens with a negative rate when the sequence has at most
    [20 * |sample_rate|] samples. *)
Theorem nonpositive_rate_raises (header_size trailer_size sample_rate : Z)
        (samples : list Z) (fuel : nat) :
  sample_rate <= 0 ->
  n_per_20s sample_rate < py_len samples ->
  py_len samples <= - n_per_20s sample_rate \/ sample_rate = 0 ->
  scan header_size trailer_size sample_rate (S fuel) samples = Raised ValueError.
Proof.
  intros Hsr Hc Hcase. unfold scan. cbn [while_loop add_pyint int_value]. rewrite Z.add_0_l.
  destruct (Z.ltb_spec (n_per_20s sample_rate) (py_len samples)); [|lia].
  unfold loop_body. cbn [add_pyint int_value]. rewrite Z.add_0_l.
  assert (E : py_slice samples 0 (n_per_20s sample_rate) = []).
  { unfold py_slice, py_norm. cbn [Z.ltb Z.compare].
    pose proof (py_len_nonneg samples).
    unfold n_per_20s in *.
    destruct (Z.ltb_spec (sample_rate * 20) 0).
    - replace (Z.to_nat (Z.max 0 (sample_rate * 20 + py_len samples) - Z.min 0 (py_len samples)))
        with 0%nat by lia.
      reflexivity.
    - replace (Z.to_nat (Z.min (sample_rate * 20) (py_len samples) - Z.min 0 (py_len samples)))
        with 0%nat by lia.
      reflexivity. }
  rewrite E. reflexivity.
Qed.

(** ** The further properties at concrete inputs *)

Lemma region_lengths_witness :
  (0 <= 0 /\ 0 <= 2 /\ 1 <= 1 /\
   scan 0 2 1 50 two_spikes
   = Done two_spikes_masked [mkInterval 20 21 7; mkInterval 41 42 7] /\
   [mkInterval 20 21 7; mkInterval 41 42 7]
   = [] ++ mkInterval 20 21 7 :: [mkInterval 41 42 7] /\
   [mkInterval 41 42 7] <> []) /\
  end_index (mkInterval 20 21 7)
  = Z.min (start_index (mkInterval 20 21 7) + region_samples 0 2) (py_len two_spikes) /\
  end_index (mkInterval 20 21 7) - start_index (mkInterval 20 21 7) = region_samples 0 2.
Proof.
  assert (E : scan 0 2 1 50 two_spikes
              = Done two_spikes_masked [mkInterval 20 21 7; mkInterval 41 42 7])
    by (vm_compute; reflexivity).
  assert (Hpost : [mkInterval 41 42 7] <> []) by discriminate.
  split; [repeat split; try lia; try exact E; exact Hpost|].
  destruct (region_lengths 0 2 1 two_spikes 50 _ _ ltac:(lia) ltac:(lia) ltac:(lia) E
              [] (mkInterval 20 21 7) [mkInterval 41 42 7] eq_refl) as [H1 H2].
  split; [exact H1|exact (H2 Hpost)].
Defined.

Lemma regions_budget_witness :
  (0 <= 0 /\ 0 <= 2 /\ 1 <= 1 /\
   scan 0 2 1 50 two_spikes
   = Done two_spikes_masked [mkInterval 20 21 7; mkInterval 41 42 7]) /\
  Z.of_nat (length [mkInterval 20 21 7; mkInterval 41 42 7]) * (1 * 20)
  + masked_total [mkInterval 20 21 7; mkInterval 41 42 7] <= py_len two_spikes.
Proof.
  assert (E : scan 0 2 1 50 two_spikes
              = Done two_spikes_masked [mkInterval 20 21 7; mkInterval 41 42 7])
    by (vm_compute; reflexivity).
  split; [repeat split; try lia; exact E|].
  exact (regions_budget 0 2 1 two_spikes 50 _ _ ltac:(lia) ltac:(lia) ltac:(lia) E).
Defined.

Lemma region_starts_at_outlier_witness :
  (0 <= 0 /\ 0 <= 2 /\ 1 <= 1 /\
   scan 0 2 1 30 gap_samples = Done gap_masked [mkInterval 22 23 7] /\
   [mkInterval 22 23 7] = [] ++ mkInterval 22 23 7 :: [] /\
   cursor_after 0 [] + n_per_20s 1 <= 21 < start_index (mkInterval 22 23 7)) /\
  exists min_signal max_signal,
    is_min_of min_signal gap_masked 0 (0 + n_per_20s 1) /\
    is_max_of max_signal gap_masked 0 (0 + n_per_20s 1) /\
    outside_band min_signal max_signal (amplitude (get gap_samples 22)) /\
    get gap_masked 21 = get gap_samples 21 /\
    ~ outside_band min_signal max_signal (amplitude (get gap_masked 21)).
Proof.
  assert (E : scan 0 2 1 30 gap_samples = Done gap_masked [mkInterval 22 23 7])
    by (vm_compute; reflexivity).
  assert (Hj : cursor_after 0 [] + n_per_20s 1 <= 21 < start_index (mkInterval 22 23 7))
    by (vm_compute; split; [discriminate|reflexivity]).
  split; [repeat split; try lia; try exact E; apply Hj|].
  destruct (region_starts_at_outlier 0 2 1 gap_samples 30 _ _
              ltac:(lia) ltac:(lia) ltac:(lia) E [] (mkInterval 22 23 7) [] eq_refl)
    as (mn & mx & Hmin & Hmax & Hout & Hbetween).
  exists mn, mx. split; [exact Hmin|]. split; [exact Hmax|]. split; [exact Hout|].
  exact (Hbetween 21 Hj).
Defined.

Lemma final_cursor_quiet_witness :
  (0 <= 0 /\ 0 <= 2 /\ 1 <= 1 /\
   scan 0 2 1 50 two_spikes
   = Done two_spikes_masked [mkInterval 20 21 7; mkInterval 41 42 7]) /\
  exists idx,
    int_value idx = 42 /\
    0 <= 42 <= py_len two_spikes_masked /\
    (forall fuel' collected,
       while_loop 0 2 1 (S fuel') two_spikes_masked idx collected
       = Done two_spikes_masked collected) /\
    (py_len two_spikes_masked <= 42 + n_per_20s 1 \/
     exists min_signal max_signal,
       is_min_of min_signal two_spikes_masked 42 (42 + n_per_20s 1) /\
       is_max_of max_signal two_spikes_masked 42 (42 + n_per_20s 1) /\
       forall j, 42 + n_per_20s 1 <= j < py_len two_spikes_masked ->
                 ~ outside_band min_signal max_signal
                     (amplitude (get two_spikes_masked j))).
Proof.
  assert (E : scan 0 2 1 50 two_spikes
              = Done two_spikes_masked [mkInterval 20 21 7; mkInterval 41 42 7])
    by (vm_compute; reflexivity).
  split; [repeat split; try lia; exact E|].
  exact (final_cursor_quiet 0 2 1 two_spikes 50 _ _ ltac:(lia) ltac:(lia) ltac:(lia) E).
Defined.


Lemma band_at_range_ends_witness :
  ((0 <= 0 /\ 0 <= 2 /\ 1 <= 1 /\
    scan 0 2 1 30 zero_samples = Done zero_masked [mkInterval 20 21 0] /\
    [mkInterval 20 21 0] = [] ++ mkInterval 20 21 0 :: [] /\
    exists j, cursor_after 0 [] <= j < cursor_after 0 [] + n_per_20s 1 /\
              amplitude (get zero_masked j) = 0) /\
   replacement_value (mkInterval 20 21 0) = 0 /\
   exists max_signal,
     is_max_of max_signal zero_masked 0 (0 + n_per_20s 1) /\
     13 * max_signal < 10 * amplitude (get zero_samples 20)) /\
  ((scan 0 2 1 30 high_samples = Done high_masked [mkInterval 20 21 2240] /\
    [mkInterval 20 21 2240] = [] ++ mkInterval 20 21 2240 :: [] /\
    exists j, cursor_after 0 [] <= j < cursor_after 0 [] + n_per_20s 1 /\
              3150 <= amplitude (get high_masked j)) /\
   exists min_signal,
     is_min_of min_signal high_masked 0 (0 + n_per_20s 1) /\
     10 * amplitude (get high_samples 20) < 7 * min_signal).
Proof.
  assert (E0 : scan 0 2 1 30 zero_samples = Done zero_masked [mkInterval 20 21 0])
    by (vm_compute; reflexivity).
  assert (E1 : scan 0 2 1 30 high_samples = Done high_masked [mkInterval 20 21 2240])
    by (vm_compute; reflexivity).
  assert (H0 : exists j, cursor_after 0 [] <= j < cursor_after 0 [] + n_per_20s 1 /\
                         amplitude (get zero_masked j) = 0).
  { exists 0. split; [|reflexivity]. vm_compute. split; [discriminate|reflexivity]. }
  assert (H1 : exists j, cursor_after 0 [] <= j < cursor_after 0 [] + n_per_20s 1 /\
                         3150 <= amplitude (get high_masked j)).
  { exists 0. split; vm_compute; [split; [discriminate|reflexivity]|discriminate]. }
  split.
  - split; [repeat split; try lia; try exact E0; exact H0|].
    destruct (band_at_range_ends 0 2 1 zero_samples 30 _ _
                ltac:(lia) ltac:(lia) ltac:(lia) E0 [] (mkInterval 20 21 0) [] eq_refl)
      as [Hlow _].
    exact (Hlow H0).
  - split; [repeat split; try exact E1; exact H1|].
    destruct (band_at_range_ends 0 2 1 high_samples 30 _ _
                ltac:(lia) ltac:(lia) ltac:(lia) E1 [] (mkInterval 20 21 2240) [] eq_refl)
      as [_ Hhigh].
    exact (Hhigh H1).
Defined.

Lemma header_and_odd_byte_ignored_witness :
  Nat.even (length small_buffer) = true /\
  decode ([xaa] ++ small_buffer) (py_len [xaa]) = decode small_buffer 0 /\
  decode ([xaa] ++ small_buffer ++ [x07]) (py_len [xaa]) = decode small_buffer 0.
Proof.
  split; [reflexivity|].
  destruct (header_and_odd_byte_ignored [xaa] small_buffer x07) as [H1 H2].
  split; [exact H1|apply H2; reflexivity].
Defined.

Lemma negative_header_reads_tail_witness :
  0 < 2 /\
  decode odd_buffer (- 2) = decode (skipn (length odd_buffer - Z.to_nat 2) odd_buffer) 0.
Proof.
  split; [lia|]. apply (negative_header_reads_tail odd_buffer 2). lia.
Defined.

Lemma decode_lossless_witness :
  (0 <= 1 /\ 0 <= 0 /\ decode odd_buffer 1 = decode [x02; x03; xff; x07] 0) /\
  firstn (2 * (length (skipn (Z.to_nat 1) odd_buffer) / 2)) (skipn (Z.to_nat 1) odd_buffer)
  = firstn (2 * (length (skipn (Z.to_nat 0) [x02; x03; xff; x07]) / 2))
           (skipn (Z.to_nat 0) [x02; x03; xff; x07]).
Proof.
  split; [repeat split; lia || reflexivity|].
  apply (decode_lossless odd_buffer [x02; x03; xff; x07] 1 0); lia || reflexivity.
Defined.

Lemma csv_columns_round_trip_witness :
  (0 <= 0 /\ 0 <= 2 /\ 1 <= 1 /\
   process_file 0 2 1 44 flat_buffer = Done flat_masked_once [mkInterval 20 21 7] /\
   parsed_columns 1 flat_masked_once
   = Some (amplitudes_column flat_masked_once, flags_column flat_masked_once)) /\
  length (amplitudes_column flat_masked_once) = length flat_masked_once /\
  length (flags_column flat_masked_once) = length flat_masked_once /\
  forall i, (i < length flat_masked_once)%nat ->
    nth i flat_masked_once 0
    = nth i (amplitudes_column flat_masked_once) 0
      + 4096 * nth i (flags_column flat_masked_once) 0 /\
    0 <= nth i (amplitudes_column flat_masked_once) 0 < 4096 /\
    0 <= nth i (flags_column flat_masked_once) 0 < 16.
Proof.
  assert (E : process_file 0 2 1 44 flat_buffer
              = Done flat_masked_once [mkInterval 20 21 7])
    by (vm_compute; reflexivity).
  assert (Ec : parsed_columns 1 flat_masked_once
               = Some (amplitudes_column flat_masked_once, flags_column flat_masked_once))
    by (vm_compute; reflexivity).
  split; [repeat split; try lia; assumption|].
  exact (csv_columns_round_trip 0 2 1 flat_buffer 44 _ _ _ _
           ltac:(lia) ltac:(lia) ltac:(lia) E Ec).
Defined.

Lemma short_recording_untouched_witness :
  (0 <= 1 /\ 1 <= 150 /\ py_len odd_buffer - 1 <= 40 * 150 + 1) /\
  exists decoded,
    decode odd_buffer 1 = Some decoded /\
    process_file 1 512 150 0 odd_buffer = Done decoded [].
Proof.
  split; [repeat split; simpl; lia|].
  apply (short_recording_untouched 1 512 150 odd_buffer 0); simpl; lia.
Defined.

Lemma quality_bits_ignored_witness :
  map amplitude flat_samples = map amplitude (map (Z.add 0xF000) flat_samples) /\
  same_up_to_quality (scan 0 2 1 30 flat_samples)
                     (scan 0 2 1 30 (map (Z.add 0xF000) flat_samples)).
Proof.
  split; [reflexivity|].
  apply (quality_bits_ignored 0 2 1 30 flat_samples (map (Z.add 0xF000) flat_samples)).
  reflexivity.
Defined.

Lemma nonpositive_rate_raises_witness :
  (0 <= 0 /\ n_per_20s 0 < py_len flat_samples /\
   (py_len flat_samples <= - n_per_20s 0 \/ 0 = 0)) /\
  scan 0 2 0 (S 0) flat_samples = Raised ValueError.
Proof.
  split; [repeat split; (reflexivity || lia || (right; reflexivity))|].
  apply (nonpositive_rate_raises 0 2 0 flat_samples 0);
    (reflexivity || lia || (right; reflexivity)).
Defined.
